(** * intelark.spiders.cpuspecs: extraction pipeline of the Intel ARK crawler

    A shallow embedding of [src/intelark/spiders/cpuspecs.py] and the
    properties of it that the specification states.

    Python strings are sequences of Unicode code points; they are modelled
    as [list N].  Dictionaries are stdpp finite maps.  A generator is
    modelled by the list of values it yields together with the way it ends
    (normally, or by raising). *)

From Stdlib Require Import ZArith NArith Ascii String.
From stdpp Require Import base option list gmap.

Local Open Scope N_scope.

(** ** Python strings *)

Module PyStr.

(** An ASCII literal as a Python string. *)
Definition str (s : string) : list N :=
  (fun a => N_of_ascii a) <$> list_ascii_of_string s.

(** [str.isspace] for one code point, the separator set of [str.split()]
    and [str.strip()] without arguments. *)
Definition isspace (c : N) : bool :=
  ((9 <=? c) && (c <=? 13)) || ((28 <=? c) && (c <=? 32))
  || (c =? 133) || (c =? 160) || (c =? 5760)
  || ((8192 <=? c) && (c <=? 8202))
  || (c =? 8232) || (c =? 8233) || (c =? 8239) || (c =? 8287)
  || (c =? 12288).

(** [s.startswith(p)] *)
Fixpoint startswith (p s : list N) : bool :=
  match p, s with
  | [], _ => true
  | _ :: _, [] => false
  | a :: p', b :: s' => (a =? b) && startswith p' s'
  end.

(** [sub in s] *)
Fixpoint contains (sub s : list N) : bool :=
  startswith sub s
  || match s with [] => false | _ :: s' => contains sub s' end.

(** [s.find(sub)]: lowest index of an occurrence, or -1. *)
Fixpoint find_from (i : Z) (sub s : list N) : Z :=
  if startswith sub s then i
  else match s with
       | [] => (-1)%Z
       | _ :: s' => find_from (i + 1)%Z sub s'
       end.

Definition find (s sub : list N) : Z := find_from 0%Z sub s.

(** [s.replace(old, new)]: occurrences are replaced from the left and do
    not overlap; [skip] counts the code points of the occurrence being
    replaced that are still to be passed over. *)
Fixpoint replace_go (old new : list N) (skip : nat) (s : list N) : list N :=
  match s with
  | [] => []
  | c :: s' =>
      match skip with
      | S n => replace_go old new n s'
      | O =>
          if startswith old s
          then new ++ replace_go old new (length old - 1) s'
          else c :: replace_go old new 0 s'
      end
  end.

Definition replace (s old new : list N) : list N :=
  match old with
  | [] => new ++ concat ((fun c => c :: new) <$> s)
  | _ :: _ => replace_go old new 0 s
  end.

(** [s.split(sep)] for a non-empty separator; [cur] is the piece being
    read.  The result always has at least one piece. *)
Fixpoint split_go (sep : list N) (skip : nat) (cur s : list N)
  : list (list N) :=
  match s with
  | [] => [cur]
  | c :: s' =>
      match skip with
      | S n => split_go sep n cur s'
      | O =>
          if startswith sep s
          then cur :: split_go sep (length sep - 1) [] s'
          else split_go sep 0 (cur ++ [c]) s'
      end
  end.

Definition split (s sep : list N) : list (list N) := split_go sep 0 [] s.

(** [s.split()]: the maximal runs of non-whitespace code points. *)
Fixpoint words_go (cur s : list N) : list (list N) :=
  match s with
  | [] => match cur with [] => [] | _ :: _ => [cur] end
  | c :: s' =>
      if isspace c
      then match cur with
           | [] => words_go [] s'
           | _ :: _ => cur :: words_go [] s'
           end
      else words_go (cur ++ [c]) s'
  end.

Definition split_ws (s : list N) : list (list N) := words_go [] s.

(** [sep.join(ws)] *)
Fixpoint join (sep : list N) (ws : list (list N)) : list N :=
  match ws with
  | [] => []
  | [w] => w
  | w :: ws' => w ++ sep ++ join sep ws'
  end.

Fixpoint skip_while (f : N -> bool) (s : list N) : list N :=
  match s with
  | [] => []
  | c :: s' => if f c then skip_while f s' else s
  end.

Definition strip_with (f : N -> bool) (s : list N) : list N :=
  reverse (skip_while f (reverse (skip_while f s))).

(** [s.strip()] *)
Definition strip (s : list N) : list N := strip_with isspace s.

(** [s.strip(chars)] *)
Definition strip_chars (s chars : list N) : list N :=
  strip_with (fun c => bool_decide (c ∈ chars)) s.

(** A word: non-empty and free of whitespace. *)
Definition word (w : list N) : Prop :=
  w ≠ [] ∧ Forall (fun c => isspace c = false) w.

End PyStr.

Import PyStr.

(** ** Module-level tables *)

Definition skipIfValue : list (list N) :=
  [ str "View now"; str "Additional Information URL"; str "Datasheet" ].

Definition skipIfKey : list (list N) :=
  [ str "Product Brief"; str "Additional Information URL"; str "Datasheet";
    str "Product Collection"; str "Code Name" ].

(** ** BaseSpider.cleantxt *)

Definition cleantxt (v : list N) : list N :=
  let v := replace v (str "Intel") [] in
  let v := replace v [8482] [] in   (* U+2122 *)
  let v := replace v [174] [] in    (* U+00AE *)
  let v := replace v [8225] [] in   (* U+2021 *)
  let v := join (str " ") (split_ws v) in
  let v := strip v in
  v.

#[global] Arguments str : simpl never.
#[global] Arguments strip : simpl never.
#[global] Arguments strip_chars : simpl never.
#[global] Arguments split : simpl never.
#[global] Arguments find : simpl never.
#[global] Arguments cleantxt : simpl never.

(** ** Exceptions, results and generators *)

Inductive exn : Type :=
  | IndexError                          (* sequence index out of range *)
  | KeyError (k : option (list N))      (* dictionary key not present *)
  | AttributeError                      (* method looked up on None or a bool *)
  | TypeError
  | ValueError (msg : list N)
  | CloseSpider (reason : list N).      (* scrapy.exceptions.CloseSpider *)

Inductive result (A : Type) : Type :=
  | Ok (a : A)
  | Raise (e : exn).
Arguments Ok {A} a.
Arguments Raise {A} e.

#[global] Instance result_ret : MRet result := fun _ a => Ok a.

#[global] Instance result_bind : MBind result := fun _ _ k m =>
  match m with
  | Ok a => k a
  | Raise e => Raise e
  end.

#[global] Instance result_fmap : FMap result := fun _ _ f m =>
  match m with
  | Ok a => Ok (f a)
  | Raise e => Raise e
  end.

(** [for x in l: st = step st x], stopping at the first exception. *)
Fixpoint for_each {A S} (step : S -> A -> result S) (st : S) (l : list A)
  : result S :=
  match l with
  | [] => Ok st
  | x :: l' => st' ← step st x; for_each step st' l'
  end.

(** A generator run to its end: what it yielded, in order, and whether it
    then returned or raised. *)
Definition gen (Y A : Type) : Type := (list Y * result A)%type.

Definition graise {Y A} (e : exn) : gen Y A := ([], Raise e).
Definition glift {Y A} (m : result A) : gen Y A := ([], m).
Definition yield {Y} (y : Y) : gen Y unit := ([y], Ok tt).

#[global] Instance gen_ret {Y} : MRet (gen Y) := fun _ a => ([], Ok a).

#[global] Instance gen_bind {Y} : MBind (gen Y) := fun _ _ k m =>
  let '(ys, r) := m in
  match r with
  | Ok a => let '(ys', r') := k a in (ys ++ ys', r')
  | Raise e => (ys, Raise e)
  end.

(** ** Collaborators

    Functions the module calls but does not define: [urlsplit] of the
    standard library, the builtin [int], [response.urljoin] of scrapy, and
    the five converters it imports from [intelark.converters].  [Conv] is
    the type of the values those converters return.  Each may raise; a
    converter that rejects its input raises [ValueError], which is what
    [parse_specs] catches. *)

Class Collaborators (Conv : Type) : Type := {
  urlsplit_path : list N -> result (list N);  (* urlsplit(u).path *)
  py_int : list N -> result Z;                (* int(s) *)
  urljoin : list N -> list N -> result (list N);
  speedToHz : list N -> result Conv;
  sizeToBytes : list N -> result Conv;
  toList : list N -> result Conv;
  toPackage : list N -> result Conv;
  toTDP : list N -> result Conv
}.

(** ** The parsed page

    The page is reached only through XPath queries; a response is modelled
    by the results of the queries the spiders make.  [None] stands for a
    query whose [.get()] finds no node. *)

(** One [div] matching [contains(@class, 'tech-section-row')]. *)
Record Row : Type := {
  tech_label : option (list N);  (* div[tech-label]/span/text() *)
  tech_data : option (list N)    (* div[tech-data]/span/text() *)
}.

(** One child [div] of [div[@data-target='processors-specifications']]. *)
Record SpecDiv : Type := {
  link_text : option (list N);   (* a/text() *)
  heading : option (list N);     (* div[heading-row]/div/h3/text() *)
  tech_rows : list Row
}.

Record Response : Type := {
  url : list N;
  current_page : option (list N);  (* //div[current-page]/span/text() *)
  spec_divs : list SpecDiv;
  hidden_crumb : option (list N);  (* //a[hidden-crumb-xs]/text() *)
  row_links : list (list N)        (* //tr/td/div/a/@href *)
}.

(** A block that only carries the "Download Specifications" link. *)
Definition is_download (section : SpecDiv) : Prop :=
  link_text section = Some (str "Download Specifications").

#[global] Instance is_download_dec section : Decision (is_download section).
Proof. unfold is_download. apply _. Defined.

(** The headers of the blocks that are not skipped, in page order. *)
Definition headers_of (sections : list SpecDiv) : list (option (list N)) :=
  heading <$> filter (fun d => ¬ is_download d) sections.

(** ** Values, dictionaries and items *)

Inductive SpecValue (Conv : Type) : Type :=
  | Boolean (b : bool)
  | Null
  | String (s : list N)
  | Number (z : Z)
  | Converted (x : Conv).
Arguments Boolean {Conv} b.
Arguments Null {Conv}.
Arguments String {Conv} s.
Arguments Number {Conv} z.
Arguments Converted {Conv} x.

(** A value of the [specs] dictionary: a plain field, or the dictionary of
    one section.  Its keys are strings or [None] (a section without an
    [h3] text). *)
Inductive TopValue (Conv : Type) : Type :=
  | TField (v : SpecValue Conv)
  | TSection (d : gmap (list N) (SpecValue Conv)).
Arguments TField {Conv} v.
Arguments TSection {Conv} d.

(** Modelled from the spec: the item classes, which [parse_specs] imports
    from [intelark.items].  The three record kinds are told apart by their
    tag, and constructing an item from a dictionary copies its top-level
    entries: a later [specs["socket"] = ...] does not change an item
    already yielded.  The section dictionaries are shared between [specs]
    and the items built from it; every write to a section ([process_row],
    [hoist_id], the deletion in [emit_sockets]) comes before the first
    product item is built (lemma [emit_record_stable] below), and
    [legends] is not written after the legend item is built, so what an
    item holds when it is built is what it holds whenever it is read. *)
Inductive Item (Conv : Type) : Type :=
  | CPULegendItem (legends : gmap (option (list N)) (gmap (list N) (list N)))
  | CPUSpecsItem (specs : gmap (option (list N)) (TopValue Conv))
  | CPUSpecsUnknownItem (specs : gmap (option (list N)) (TopValue Conv)).
Arguments CPULegendItem {Conv} legends.
Arguments CPUSpecsItem {Conv} specs.
Arguments CPUSpecsUnknownItem {Conv} specs.

Inductive Callback : Type := cb_parse_series | cb_parse_specs.

(** [scrapy.Request(url, callback=...)] *)
Record Request : Type := { req_url : list N; req_callback : Callback }.

(** A string used as a dictionary key of [specs]. *)
Definition key (s : string) : option (list N) := Some (str s).

Inductive converter : Type :=
  | conv_int | conv_speedToHz | conv_sizeToBytes
  | conv_toList | conv_toPackage | conv_toTDP.

Definition convertTo : gmap (list N) converter :=
  list_to_map
    [ (str "NumPCIExpressPorts", conv_int);
      (str "MaxCPUs", conv_int);
      (str "NumMemoryChannels", conv_int);
      (str "CoreCount", conv_int);
      (str "ThreadCount", conv_int);
      (str "NumUSBPorts", conv_int);
      (str "NumSATAPorts", conv_int);
      (str "SATA6PortCount", conv_int);
      (str "ClockSpeed", conv_speedToHz);
      (str "GraphicsFreq", conv_speedToHz);
      (str "GraphicsMaxFreq", conv_speedToHz);
      (str "ClockSpeedMax", conv_speedToHz);
      (str "TurboBoostMaxTechMaxFreq", conv_speedToHz);
      (str "GraphicsMaxMem", conv_sizeToBytes);
      (str "NumDisplaysSupported", conv_int);
      (str "MaxMem", conv_sizeToBytes);
      (str "EmbeddedDramMB", conv_sizeToBytes);
      (str "MaxMemoryBandwidth", conv_sizeToBytes);
      (str "UltraPathInterconnectLinks", conv_int);
      (str "AVX512FusedMultiplyAddUnits", conv_int);
      (str "InstructionSetExtensions", conv_toList);
      (str "DiscreteGraphicsComputeUnitCount", conv_int);
      (str "DiscreteNumDisplaysSupported", conv_int);
      (str "MemoryMaxSpeedMhz", conv_speedToHz);
      (str "PackageSize", conv_toPackage);
      (str "MaxTDP", conv_toTDP);
      (str "BusNumPorts", conv_int) ].

Section Spiders.

Context {Conv : Type} `{!Collaborators Conv}.

Local Abbreviation specs_t := (gmap (option (list N)) (TopValue Conv)).
Local Abbreviation legends_t := (gmap (option (list N)) (gmap (list N) (list N))).

(** [convertTo[k](v)] *)
Definition call_converter (c : converter) (v : list N)
  : result (SpecValue Conv) :=
  match c with
  | conv_int => Number <$> py_int v
  | conv_speedToHz => Converted <$> speedToHz v
  | conv_sizeToBytes => Converted <$> sizeToBytes v
  | conv_toList => Converted <$> toList v
  | conv_toPackage => Converted <$> toPackage v
  | conv_toTDP => Converted <$> toTDP v
  end.

(** The [if v == 'Yes' ... elif k in convertTo ...] chain of
    [parse_specs] (lines 151-165): the value stored for key [k] and
    cleaned text [v]. *)
Definition typed_value (k v : list N) : result (SpecValue Conv) :=
  if decide (v = str "Yes") then Ok (Boolean true)
  else if decide (v = str "No") then Ok (Boolean false)
  else if decide (v = []) then Ok Null
  else match convertTo !! k with
       | Some c =>
           match call_converter c v with
           | Ok x => Ok x
           | Raise (ValueError _) =>
               Raise (ValueError (str "FAILED: " ++ k ++ str ": " ++ v))
           | Raise e => Raise e
           end
       | None => Ok (String v)
       end.

(** [specs[h]] used as a dictionary.  Where [parse_specs] does so and the
    entry exists, it is a section: only "URL", "name" and "arkid" hold a
    plain value, and a block with one of these headers stops at its own
    legend group (lemma [collect_header] below).  [TypeError] stands for
    what Python does with a plain value there. *)
Definition get_section (specs : specs_t) (h : option (list N))
  : result (gmap (list N) (SpecValue Conv)) :=
  match specs !! h with
  | Some (TSection d) => Ok d
  | Some (TField _) => Raise TypeError
  | None => Raise (KeyError h)
  end.

(** The body of [for data in section.xpath(...)] (lines 131-167). *)
Definition process_row (header : option (list N))
    (st : specs_t * legends_t) (data : Row) : result (specs_t * legends_t) :=
  let '(specs, legends) := st in
  match tech_label data with
  | None => Raise AttributeError
  | Some raw_k =>
      let k := strip raw_k in
      if bool_decide (k ∈ skipIfKey) then Ok (specs, legends)
      else
        match legends !! header with
        | None => Raise (KeyError header)
        | Some lg =>
            let legends := <[header := <[k := cleantxt k]> lg]> legends in
            match tech_data data with
            | None => Raise TypeError
            | Some raw_v =>
                let v := cleantxt (strip raw_v) in
                if bool_decide (v ∈ skipIfValue) then Ok (specs, legends)
                else
                  v' ← typed_value k v;
                  d ← get_section specs header;
                  Ok (<[header := TSection (<[k := v']> d)]> specs, legends)
            end
        end
  end.

(** [if header not in specs: specs[header] = {}; legends[header] = {}] *)
Definition init_header (header : option (list N))
    (st : specs_t * legends_t) : specs_t * legends_t :=
  match st.1 !! header with
  | None => (<[header := TSection ∅]> st.1, <[header := ∅]> st.2)
  | Some _ => st
  end.

(** The body of [for section in response.xpath(...)] (lines 122-167). *)
Definition process_section (st : specs_t * legends_t) (section : SpecDiv)
  : result (specs_t * legends_t) :=
  if decide (is_download section) then Ok st
  else
    let header := heading section in
    for_each (process_row header) (init_header header st)
      (tech_rows section).

(** The dictionary [parse_specs] starts from (lines 111-115). *)
Definition initial_specs (response : Response) (cpuname : list N)
    (arkcpuid : Z) : specs_t :=
  <[key "URL" := TField (String (url response))]>
    (<[key "name" := TField (String cpuname)]>
       (<[key "arkid" := TField (Number arkcpuid)]> ∅)).

(** [parse_specs] up to the comment "Specification object is now
    complete" (lines 105-167): the [specs] and [legends] dictionaries.
    Nothing is yielded in this part. *)
Definition collect (response : Response) : result (specs_t * legends_t) :=
  path ← urlsplit_path (url response);
  seg ← match split (strip_chars path (str "/")) (str "/") !! 6%nat with
        | Some seg => Ok seg
        | None => Raise IndexError
        end;
  arkcpuid ← py_int seg;
  cpuname ← match current_page response with
            | Some t => Ok (cleantxt t)
            | None => Raise AttributeError
            end;
  let specs : specs_t := initial_specs response cpuname arkcpuid in
  let legends : legends_t := ∅ in
  for_each process_section (specs, legends) (spec_divs response).

(** [for socket in sockets: specs["socket"] = socket; yield ...]
    (lines 194-196).  This and the next two generators return the
    dictionary [specs] as they leave it: it is what the items built from
    it share their sections with. *)
Fixpoint yield_sockets (specs : specs_t) (sockets : list (list N))
  : gen (Item Conv) specs_t :=
  match sockets with
  | [] => mret specs
  | socket :: rest =>
      let specs := <[key "socket" := TField (String socket)]> specs in
      yield (CPUSpecsItem specs) ;; yield_sockets specs rest
  end.

(** [if has_id: specs["id"] = ...; del ...] (lines 182-185) *)
Definition hoist_id (specs : specs_t) (has_id : bool) : result specs_t :=
  if has_id then
    essentials ← get_section specs (key "Essentials");
    v ← from_option Ok (Raise (KeyError (key "Processor Number")))
          (essentials !! str "Processor Number");
    let specs := <[key "id" := TField v]> specs in
    essentials ← get_section specs (key "Essentials");
    Ok (<[key "Essentials" :=
            TSection (delete (str "Processor Number") essentials)]> specs)
  else Ok specs.

(** The [else] branch of [if not has_socket] (lines 190-196). *)
Definition emit_sockets (specs : specs_t) : gen (Item Conv) specs_t :=
  package ← glift (get_section specs (key "Package Specifications"));
  sockets ← glift (
    match package !! str "Sockets Supported" with
    | Some (String v) => Ok (split v (str ", "))
    | Some _ => Raise AttributeError
    | None => Raise (KeyError (key "Sockets Supported"))
    end);
  package ← glift (get_section specs (key "Package Specifications"));
  let specs :=
    <[key "Package Specifications" :=
        TSection (delete (str "Sockets Supported") package)]> specs in
  yield_sockets specs sockets.

(** [parse_specs] from [yield CPULegendItem(legends)] on (lines 171-196). *)
Definition emit (specs : specs_t) (legends : legends_t)
  : gen (Item Conv) specs_t :=
  yield (CPULegendItem legends) ;;
  package ← glift (get_section specs (key "Package Specifications"));
  let has_socket := bool_decide (is_Some (package !! str "Sockets Supported")) in
  essentials ← glift (get_section specs (key "Essentials"));
  let has_id := bool_decide (is_Some (essentials !! str "Processor Number")) in
  specs ← glift (hoist_id specs has_id);
  if negb has_socket then yield (CPUSpecsUnknownItem specs) ;; mret specs
  else emit_sockets specs.

(** [parse_specs] (lines 101-196) *)
Definition parse_specs (response : Response) : gen (Item Conv) unit :=
  '(specs, legends) ← glift (collect response);
  emit specs legends ;;
  mret tt.

(** The body of [for link in response.xpath("//tr/td/div/a/@href")]
    (lines 95-99); the message sent to the logger is not modelled. *)
Fixpoint follow_links (base : Response) (links : list (list N))
  : gen Request unit :=
  match links with
  | [] => mret tt
  | link :: rest =>
      if decide (find link (str "/products/") = (-1)%Z)
      then follow_links base rest
      else
        target ← glift (urljoin (url base) link);
        yield {| req_url := target; req_callback := cb_parse_specs |} ;;
        follow_links base rest
  end.

(** [parse_series] (lines 84-99) *)
Definition parse_series (response : Response) : gen Request unit :=
  crumb ← glift (from_option Ok (Raise AttributeError) (hidden_crumb response));
  if decide (strip crumb ≠ str "Processors")
  then graise (CloseSpider (str "Processors not found in crumb"))
  else follow_links response (row_links response).

End Spiders.

#[global] Arguments key : simpl never.
#[global] Arguments initial_specs : simpl never.
#[global] Arguments hoist_id : simpl never.
#[global] Arguments emit_sockets : simpl never.

(** ** Spider constructors *)

(** [CpuSpecSpider.__init__]: the [start_urls] it sets, or the exception. *)
Definition CpuSpecSpider_init (url : option (list N)) : result (list (list N)) :=
  let url := if decide (url = Some []) then None else url in
  match url with
  | None => Raise (ValueError (str "Invalid url given"))
  | Some u =>
      if decide (find u (str "/products/") = (-1)%Z)
      then Raise (ValueError (str "/products/ not found from url " ++ u))
      else Ok [u]
  end.

(** [SeriesSpider.__init__] *)
Definition SeriesSpider_init (url : option (list N)) : result (list (list N)) :=
  let url := if decide (url = Some []) then None else url in
  match url with
  | None => Raise (ValueError (str "Invalid url given"))
  | Some u =>
      if decide (find u (str "/products/") = (-1)%Z)
      then Raise (ValueError (str "/products/ not found from url " ++ u))
      else if decide (find u (str "/series/") = (-1)%Z)
      then Raise (ValueError (str "/series/ not found from url " ++ u))
      else Ok [u]
  end.

(** ** Vocabulary for the statements *)

Section Vocabulary.

Context {Conv : Type} `{!Collaborators Conv}.

Local Abbreviation specs_t := (gmap (option (list N)) (TopValue Conv)).
Local Abbreviation legends_t := (gmap (option (list N)) (gmap (list N) (list N))).

(** What a row that raises nothing does to [specs] and [legends]. *)
Inductive row_effect (header : option (list N))
    (specs : specs_t) (legends : legends_t) (data : Row)
  : specs_t -> legends_t -> Prop :=
  | row_key_skipped raw_k :
      tech_label data = Some raw_k ->
      strip raw_k ∈ skipIfKey ->
      row_effect header specs legends data specs legends
  | row_value_skipped raw_k lg raw_v :
      tech_label data = Some raw_k ->
      strip raw_k ∉ skipIfKey ->
      legends !! header = Some lg ->
      tech_data data = Some raw_v ->
      cleantxt (strip raw_v) ∈ skipIfValue ->
      row_effect header specs legends data specs
        (<[header := <[strip raw_k := cleantxt (strip raw_k)]> lg]> legends)
  | row_stored raw_k lg raw_v x d :
      tech_label data = Some raw_k ->
      strip raw_k ∉ skipIfKey ->
      legends !! header = Some lg ->
      tech_data data = Some raw_v ->
      cleantxt (strip raw_v) ∉ skipIfValue ->
      typed_value (strip raw_k) (cleantxt (strip raw_v)) = Ok x ->
      specs !! header = Some (TSection d) ->
      row_effect header specs legends data
        (<[header := TSection (<[strip raw_k := x]> d)]> specs)
        (<[header := <[strip raw_k := cleantxt (strip raw_k)]> lg]> legends).

(** [data] is a row with key [k] in a block headed [header] that is not
    skipped. *)
Definition row_of (sections : list SpecDiv) (header : option (list N))
    (k : list N) (data : Row) : Prop :=
  exists section raw_k,
    section ∈ sections ∧ ¬ is_download section ∧ heading section = header
    ∧ data ∈ tech_rows section
    ∧ tech_label data = Some raw_k ∧ strip raw_k = k.

(** The cleaned value text of a row. *)
Definition value_text (data : Row) : option (list N) :=
  (fun raw_v => cleantxt (strip raw_v)) <$> tech_data data.

(** [specs] once "Processor Number" has been hoisted out of the
    "Essentials" section [essentials], if it is there. *)
Definition hoisted (specs : specs_t)
    (essentials : gmap (list N) (SpecValue Conv)) : specs_t :=
  match essentials !! str "Processor Number" with
  | Some v =>
      <[key "Essentials" :=
          TSection (delete (str "Processor Number") essentials)]>
        (<[key "id" := TField v]> specs)
  | None => specs
  end.

(** The record for one socket name, over the dictionary [base]. *)
Definition socket_record (base : specs_t) (socket : list N) : Item Conv :=
  CPUSpecsItem (<[key "socket" := TField (String socket)]> base).

(** [base] after [specs["socket"] = socket] for each socket in turn. *)
Definition last_socket (base : specs_t) (sockets : list (list N)) : specs_t :=
  foldl (fun specs socket => <[key "socket" := TField (String socket)]> specs)
    base sockets.

(** The product records among the items, with their dictionaries. *)
Definition product_record (i : Item Conv) : option specs_t :=
  match i with
  | CPULegendItem _ => None
  | CPUSpecsItem m => Some m
  | CPUSpecsUnknownItem m => Some m
  end.

(** [legends[header][k]] is set, to the cleaned key. *)
Definition legend_has (legends : legends_t) (header : option (list N))
    (k : list N) : Prop :=
  exists lg, legends !! header = Some lg ∧ lg !! k = Some (cleantxt k).

(** From [st] to [st']: plain fields are kept as they are, no entry of
    [specs] disappears, no legend entry disappears. *)
Definition grows (st st' : specs_t * legends_t) : Prop :=
  (forall h v, st'.1 !! h = Some (TField v) <-> st.1 !! h = Some (TField v))
  ∧ (forall h, is_Some (st.1 !! h) -> is_Some (st'.1 !! h))
  ∧ (forall h k, legend_has st.2 h k -> legend_has st'.2 h k).

(** Every stored value and every legend entry comes from a row of
    [sections] that the skip lists let through. *)
Definition traced (sections : list SpecDiv) (st : specs_t * legends_t)
  : Prop :=
  (forall h d k x,
      st.1 !! h = Some (TSection d) -> d !! k = Some x ->
      (k ∉ skipIfKey)
      ∧ (exists data v,
            row_of sections h k data ∧ value_text data = Some v
            ∧ (v ∉ skipIfValue) ∧ typed_value k v = Ok x))
  ∧ (forall h lg k t,
        st.2 !! h = Some lg -> lg !! k = Some t ->
        t = cleantxt k ∧ (k ∉ skipIfKey)
        ∧ (exists data, row_of sections h k data)).

(** Every key of [specs] but the three initial ones has a legend group. *)
Definition sections_have_legends (st : specs_t * legends_t) : Prop :=
  forall h, is_Some (st.1 !! h) ->
            h ∈ [key "URL"; key "name"; key "arkid"] ∨ is_Some (st.2 !! h).

(** [parse_specs response] arrives at the row [data] of the block
    [section] with the dictionaries [st]: nothing before it raised. *)
Definition reaches (response : Response) (section : SpecDiv) (data : Row)
    (st : specs_t * legends_t) : Prop :=
  exists path seg arkcpuid t pre post st1 rows_pre rows_post,
    urlsplit_path (url response) = Ok path
    ∧ split (strip_chars path (str "/")) (str "/") !! 6%nat = Some seg
    ∧ py_int seg = Ok arkcpuid
    ∧ current_page response = Some t
    ∧ spec_divs response = pre ++ section :: post
    ∧ for_each process_section
        (initial_specs response (cleantxt t) arkcpuid, ∅) pre = Ok st1
    ∧ ¬ is_download section
    ∧ tech_rows section = rows_pre ++ data :: rows_post
    ∧ for_each (process_row (heading section))
        (init_header (heading section) st1) rows_pre = Ok st.

(** Every header with a legend group is a key of [specs]. *)
Definition legends_within (st : specs_t * legends_t) : Prop :=
  forall h, is_Some (st.2 !! h) -> is_Some (st.1 !! h).

End Vocabulary.

(** ** A concrete environment

    An instance of the collaborators on which the spiders can be run.
    [int_literal] follows the builtin [int] on ASCII text and [url_path]
    follows [urlsplit] on URLs of the form [scheme://host/path?query#frag];
    [urljoin] returns the link as it is; [toList] is the comma-space split
    the specification describes, and the other four converters reject
    every input here. *)

Module Concrete.

Definition digit_of (c : N) : option Z :=
  if (48 <=? c) && (c <=? 57) then Some (Z.of_N (c - 48)) else None.

(** Decimal digits, single underscores allowed between two digits. *)
Fixpoint digits_go (acc : Z) (after_digit : bool) (s : list N) : option Z :=
  match s with
  | [] => if after_digit then Some acc else None
  | c :: s' =>
      if c =? 95 then (if after_digit then digits_go acc false s' else None)
      else match digit_of c with
           | Some d => digits_go (10 * acc + d)%Z true s'
           | None => None
           end
  end.

Definition int_literal (s : list N) : result Z :=
  let t := strip s in
  let r := match t with
           | 45 :: t' => Z.opp <$> digits_go 0 false t'
           | 43 :: t' => digits_go 0 false t'
           | _ => digits_go 0 false t
           end in
  from_option Ok
    (Raise (ValueError (str "invalid literal for int() with base 10: '"
                          ++ s ++ str "'"))) r.

Definition is_alpha (c : N) : bool :=
  ((65 <=? c) && (c <=? 90)) || ((97 <=? c) && (c <=? 122)).

Definition is_scheme_char (c : N) : bool :=
  is_alpha c || ((48 <=? c) && (c <=? 57))
  || (c =? 43) || (c =? 45) || (c =? 46).

Fixpoint take_until (f : N -> bool) (s : list N) : list N :=
  match s with
  | [] => []
  | c :: s' => if f c then [] else c :: take_until f s'
  end.

Fixpoint drop_until (f : N -> bool) (s : list N) : list N :=
  match s with
  | [] => []
  | c :: s' => if f c then s else drop_until f s'
  end.

Definition drop_scheme (u : list N) : list N :=
  let head := take_until (fun c => c =? 58) u in
  match head, drop_until (fun c => c =? 58) u with
  | c :: _, _ :: rest =>
      if is_alpha c && forallb is_scheme_char head then rest else u
  | _, _ => u
  end.

Definition is_delim (c : N) : bool := (c =? 47) || (c =? 63) || (c =? 35).

Definition drop_netloc (u : list N) : list N :=
  match u with
  | 47 :: 47 :: rest => drop_until is_delim rest
  | _ => u
  end.

Definition url_path (u : list N) : result (list N) :=
  Ok (take_until (fun c => (c =? 63) || (c =? 35)) (drop_netloc (drop_scheme u))).

#[export] Instance env : Collaborators (list (list N)) := {|
  urlsplit_path := url_path;
  py_int := int_literal;
  urljoin := fun base link => Ok link;
  speedToHz := fun v => Raise (ValueError (str "speedToHz"));
  sizeToBytes := fun v => Raise (ValueError (str "sizeToBytes"));
  toList := fun v => Ok (split v (str ", "));
  toPackage := fun v => Raise (ValueError (str "toPackage"));
  toTDP := fun v => Raise (ValueError (str "toTDP"))
|}.

Definition row (k v : string) : Row :=
  {| tech_label := Some (str k); tech_data := Some (str v) |}.

Definition div (h : string) (rs : list Row) : SpecDiv :=
  {| link_text := None; heading := Some (str h); tech_rows := rs |}.

Definition page (u : string) (ds : list SpecDiv) : Response :=
  {| url := str u; current_page := Some (str "Intel Core i7");
     spec_divs := ds; hidden_crumb := Some (str "Processors");
     row_links := [] |}.

Definition ark_url : string :=
  "https://ark.intel.com/content/www/us/en/ark/products/29765/q6600.html".

(** A page with both sections; two rows are skipped. *)
Definition page_q6600 : Response :=
  page ark_url
    [ div "Essentials"
        [ row "Processor Number" "Q6600"; row "Code Name" "Kentsfield";
          row "Status" "Datasheet" ];
      div "Package Specifications"
        [ row "Sockets Supported" "LGA775, PGA478" ] ].

Definition q6600_essentials : gmap (list N) (SpecValue (list (list N))) :=
  {[ str "Processor Number" := String (str "Q6600") ]}.

Definition q6600_package : gmap (list N) (SpecValue (list (list N))) :=
  {[ str "Sockets Supported" := String (str "LGA775, PGA478") ]}.

Definition q6600_specs
  : gmap (option (list N)) (TopValue (list (list N))) :=
  <[key "Package Specifications" := TSection q6600_package]>
    (<[key "Essentials" := TSection q6600_essentials]>
       (initial_specs page_q6600 (str "Core i7") 29765)).

Definition q6600_legends : gmap (option (list N)) (gmap (list N) (list N)) :=
  {[ key "Essentials" :=
       {[ str "Processor Number" := str "Processor Number";
          str "Status" := str "Status" ]};
     key "Package Specifications" :=
       {[ str "Sockets Supported" := str "Sockets Supported" ]} ]}.

Definition q6600_base
  : gmap (option (list N)) (TopValue (list (list N))) :=
  <[key "Package Specifications" :=
      TSection (delete (str "Sockets Supported") q6600_package)]>
    (hoisted q6600_specs q6600_essentials).

(** "Sockets Supported" is there, the "Essentials" block is not. *)
Definition page_no_essentials : Response :=
  page ark_url
    [ div "Package Specifications" [ row "Sockets Supported" "LGA775" ] ].

(** No "Sockets Supported", and a block headed "socket". *)
Definition page_socket_header : Response :=
  page ark_url
    [ div "Essentials" [ row "Status" "Launched" ];
      div "Package Specifications" [ row "Package Size" "37.5mm" ];
      div "socket" [ row "Type" "LGA" ] ].

(** No "Processor Number", and a block headed "id". *)
Definition page_id_header : Response :=
  page ark_url
    [ div "Essentials" [ row "Status" "Launched" ];
      div "Package Specifications" [ row "Sockets Supported" "LGA775" ];
      div "id" [ row "Note" "x" ] ].

(** The seventh path segment is "-7". *)
Definition page_negative : Response :=
  page "https://ark.intel.com/content/www/us/en/ark/products/-7/x.html"
    [ div "Essentials" [ row "Status" "Launched" ];
      div "Package Specifications" [ row "Package Size" "37.5mm" ] ].

(** A count that [int] rejects. *)
Definition page_bad_count : Response :=
  page ark_url [ div "Essentials" [ row "CoreCount" "eight" ] ].

(** A listing page under another breadcrumb. *)
Definition page_memory_series : Response :=
  {| url := str "https://ark.intel.com/content/www/us/en/ark/products/series/1/memory.html";
     current_page := None; spec_divs := [];
     hidden_crumb := Some (str " Memory and Storage ");
     row_links := [ str "/content/www/us/en/ark/products/1/x.html" ] |}.

(** An "Essentials" block and no "Package Specifications" block. *)
Definition page_essentials_only : Response :=
  page ark_url [ div "Essentials" [ row "Status" "Launched" ] ].

(** Two rows for "Status"; the value of the second is a placeholder. *)
Definition page_status_twice : Response :=
  page ark_url
    [ div "Essentials"
        [ row "Status" "Launched"; row "Status" "Datasheet" ];
      div "Package Specifications" [ row "Package Size" "37.5mm" ] ].

(** A listing page without the breadcrumb node. *)
Definition page_series_no_crumb : Response :=
  {| url := str "https://ark.intel.com/content/www/us/en/ark/products/series/1/memory.html";
     current_page := None; spec_divs := [];
     hidden_crumb := None;
     row_links := [ str "/content/www/us/en/ark/products/1/x.html" ] |}.

End Concrete.


(** ** The [parse] methods of the three spiders *)

(** The catalog page as [CpuSpecListSpider.parse] queries it (lines
    205-209): the panel keys under "Processors", and for a panel key the
    links that the XPath built from it selects.  That XPath is made by
    pasting the key between quotes, so evaluating it may raise. *)
Record Catalog : Type := {
  catalog_url : list N;
  panel_keys : list (list N);
  panel_links : list N -> result (list (list N))
}.

Section Entry.

Context {Conv : Type} `{!Collaborators Conv}.

(** The inner loop of [CpuSpecListSpider.parse] (lines 208-209). *)
Fixpoint request_series (base : list N) (links : list (list N))
  : gen Request unit :=
  match links with
  | [] => mret tt
  | link :: rest =>
      target ← glift (urljoin base link);
      yield {| req_url := target; req_callback := cb_parse_series |} ;;
      request_series base rest
  end.

(** The outer loop of [CpuSpecListSpider.parse] (lines 206-209). *)
Fixpoint walk_panels (catalog : Catalog) (keys : list (list N))
  : gen Request unit :=
  match keys with
  | [] => mret tt
  | panelId :: rest =>
      links ← glift (panel_links catalog panelId);
      request_series (catalog_url catalog) links ;;
      walk_panels catalog rest
  end.

(** [CpuSpecListSpider.parse] (lines 205-209) *)
Definition CpuSpecListSpider_parse (catalog : Catalog) : gen Request unit :=
  walk_panels catalog (panel_keys catalog).

End Entry.

(** [CpuSpecSpider.parse] (lines 230-231) *)
Definition CpuSpecSpider_parse (response : Response) : gen Request unit :=
  yield {| req_url := url response; req_callback := cb_parse_specs |}.

(** [SeriesSpider.parse] (lines 256-257) *)
Definition SeriesSpider_parse (response : Response) : gen Request unit :=
  yield {| req_url := url response; req_callback := cb_parse_series |}.

(** ** More vocabulary *)

(** [response] with other specification blocks. *)
Definition with_divs (response : Response) (sections : list SpecDiv)
  : Response :=
  {| url := url response; current_page := current_page response;
     spec_divs := sections; hidden_crumb := hidden_crumb response;
     row_links := row_links response |}.

(** One block with the rows of [s1], then those of [s2]. *)
Definition merged (s1 s2 : SpecDiv) : SpecDiv :=
  {| link_text := link_text s1; heading := heading s1;
     tech_rows := tech_rows s1 ++ tech_rows s2 |}.

(** The links that contain "/products/", in order. *)
Definition product_links (links : list (list N)) : list (list N) :=
  filter (fun link => contains (str "/products/") link = true) links.

(** The [socket] entries of the product records among [items]. *)
Definition socket_fields {Conv : Type} (items : list (Item Conv))
  : list (TopValue Conv) :=
  omap (fun i => m ← product_record i; m !! key "socket") items.

(** The three keys [specs] starts with. *)
Definition initial_keys : list (option (list N)) :=
  [key "URL"; key "name"; key "arkid"].

(** The three initial keys stay in [specs] and never get a legend group. *)
Definition initial_keys_kept {Conv : Type}
    (st : gmap (option (list N)) (TopValue Conv)
          * gmap (option (list N)) (gmap (list N) (list N))) : Prop :=
  forall h, h ∈ initial_keys -> is_Some (st.1 !! h) ∧ st.2 !! h = None.

(** More pages for the concrete environment. *)
Module Samples.

Import Concrete.

(** "Sockets Supported" reads "Yes". *)
Definition page_socket_yes : Response :=
  page ark_url
    [ div "Essentials" [ row "Status" "Launched" ];
      div "Package Specifications" [ row "Sockets Supported" "Yes" ] ].

(** A "Download Specifications" block between the two sections. *)
Definition page_with_download : Response :=
  page ark_url
    [ div "Essentials" [ row "Processor Number" "Q6600" ];
      {| link_text := Some (str "Download Specifications");
         heading := None; tech_rows := [ row "x" "y" ] |};
      div "Package Specifications" [ row "Sockets Supported" "LGA775" ] ].

(** Two blocks headed "Essentials", one after the other. *)
Definition page_split_essentials : Response :=
  page ark_url
    [ div "Essentials" [ row "Processor Number" "Q6600" ];
      div "Essentials" [ row "Status" "Launched" ];
      div "Package Specifications" [ row "Sockets Supported" "LGA775" ] ].

(** A row without a label node. *)
Definition page_no_label : Response :=
  page ark_url
    [ div "Essentials"
        [ {| tech_label := None; tech_data := Some (str "x") |} ] ].

(** A row without a value node. *)
Definition page_no_value : Response :=
  page ark_url
    [ div "Essentials"
        [ {| tech_label := Some (str "Status"); tech_data := None |} ] ].

(** A block headed "name". *)
Definition page_name_header : Response :=
  page ark_url [ div "name" [ row "Status" "Launched" ] ].

(** A listing page with one product link among three. *)
Definition page_core_series : Response :=
  {| url := str "https://ark.intel.com/content/www/us/en/ark/products/series/2/core.html";
     current_page := None; spec_divs := [];
     hidden_crumb := Some (str " Processors ");
     row_links :=
       [ str "/content/www/us/en/ark/compare.html";
         str "/content/www/us/en/ark/products/29765/q6600.html";
         str "#top" ] |}.

(** A catalog with two panels. *)
Definition catalog_two : Catalog :=
  {| catalog_url := str "https://ark.intel.com/content/www/us/en/ark.html";
     panel_keys := [ str "PanelLabel122139"; str "PanelLabel595" ];
     panel_links := fun k =>
       if decide (k = str "PanelLabel122139")
       then Ok [ str "/series/1/core.html"; str "/series/2/xeon.html" ]
       else Ok [ str "/series/3/atom.html" ] |}.

(** An environment whose [toList] raises something that is not a
    [ValueError]. *)
Definition env_toList_fails : Collaborators (list (list N)) :=
  {| urlsplit_path := url_path;
     py_int := int_literal;
     urljoin := fun base link => Ok link;
     speedToHz := fun v => Raise (ValueError (str "speedToHz"));
     sizeToBytes := fun v => Raise (ValueError (str "sizeToBytes"));
     toList := fun v => Raise IndexError;
     toPackage := fun v => Raise (ValueError (str "toPackage"));
     toTDP := fun v => Raise (ValueError (str "toTDP")) |}.

Definition page_extensions : Response :=
  page ark_url
    [ div "Advanced Technologies"
        [ row "InstructionSetExtensions" "SSE4.1, AVX2" ] ].

(** An environment whose [urljoin] rejects a link with an opening
    bracket, as [urllib] does for a malformed IPv6 host. *)
Definition env_strict_join : Collaborators (list (list N)) :=
  {| urlsplit_path := url_path;
     py_int := int_literal;
     urljoin := fun base link =>
       if contains (str "[") link
       then Raise (ValueError (str "Invalid IPv6 URL"))
       else Ok link;
     speedToHz := fun v => Raise (ValueError (str "speedToHz"));
     sizeToBytes := fun v => Raise (ValueError (str "sizeToBytes"));
     toList := fun v => Ok (split v (str ", "));
     toPackage := fun v => Raise (ValueError (str "toPackage"));
     toTDP := fun v => Raise (ValueError (str "toTDP")) |}.

(** A listing page whose third link cannot be joined. *)
Definition page_bad_link : Response :=
  {| url := str "https://ark.intel.com/content/www/us/en/ark/products/series/2/core.html";
     current_page := None; spec_divs := [];
     hidden_crumb := Some (str "Processors");
     row_links :=
       [ str "/content/www/us/en/ark/products/1/a.html";
         str "#top";
         str "//[/products/2/b.html";
         str "/content/www/us/en/ark/products/3/c.html" ] |}.

(** A catalog whose second panel key makes the link query raise. *)
Definition catalog_quote : Catalog :=
  {| catalog_url := str "https://ark.intel.com/content/www/us/en/ark.html";
     panel_keys := [ str "PanelLabel595"; str "Panel'Label" ];
     panel_links := fun k =>
       if decide (k = str "PanelLabel595")
       then Ok [ str "/series/3/atom.html" ]
       else Raise (ValueError (str "XPath error")) |}.

(** The links of the panels of [catalog_two] and [catalog_quote]. *)
Definition links_two (k : list N) : list (list N) :=
  if decide (k = str "PanelLabel122139")
  then [ str "/series/1/core.html"; str "/series/2/xeon.html" ]
  else [ str "/series/3/atom.html" ].

Definition links_quote (k : list N) : list (list N) :=
  [ str "/series/3/atom.html" ].

End Samples.

(** * Properties *)

(** ** Facts about the string primitives *)

Section StringFacts.

Implicit Types (s t old new w cur sep : list N) (c : N).

Lemma startswith_cons_false old c s :
  contains old (c :: s) = false -> startswith old (c :: s) = false.
Proof. cbn [contains]. intros H. by apply orb_false_elim in H as [? _]. Qed.

Lemma contains_cons_false old c s :
  contains old (c :: s) = false -> contains old s = false.
Proof. cbn [contains]. intros H. by apply orb_false_elim in H as [_ ?]. Qed.

(** Replacing a string that does not occur changes nothing. *)
Lemma replace_go_absent old new s :
  contains old s = false -> replace_go old new 0 s = s.
Proof.
  induction s as [|c s IH]; intros H; [done|].
  cbn [replace_go]. rewrite (startswith_cons_false _ _ _ H).
  f_equal. apply IH. by eapply contains_cons_false.
Qed.

Lemma replace_absent s old new :
  contains old s = false -> replace s old new = s.
Proof.
  destruct old as [|a old]; [by destruct s|].
  apply replace_go_absent.
Qed.

(** Deleting occurrences introduces no code point. *)
Lemma elem_of_replace_go old k s c :
  c ∈ replace_go old [] k s -> c ∈ s.
Proof.
  revert k. induction s as [|a s IH]; intros k; [done|].
  cbn [replace_go]. destruct k as [|k].
  - destruct (startswith old (a :: s)); cbn [app].
    + intros ?%IH. by right.
    + intros [->|?%IH]%elem_of_cons; [left|by right].
  - intros ?%IH. by right.
Qed.

Lemma elem_of_delete old s c :
  old ≠ [] -> c ∈ replace s old [] -> c ∈ s.
Proof. destruct old; [done|]. intros _. apply elem_of_replace_go. Qed.

(** After deleting a single code point, it is gone. *)
Lemma not_elem_of_delete_char c s : c ∉ replace s [c] [].
Proof.
  unfold replace. induction s as [|a s IH]; [by apply not_elem_of_nil|].
  cbn [replace_go startswith length]. rewrite andb_true_r.
  destruct (N.eqb_spec c a) as [->|Hne]; cbn [app Nat.sub]; [done|].
  by apply not_elem_of_cons.
Qed.

Lemma contains_char_false c s : c ∉ s -> contains [c] s = false.
Proof.
  induction s as [|a s IH]; [done|].
  intros [Hne Hs]%not_elem_of_cons. cbn [contains startswith].
  rewrite (IH Hs), andb_true_r, orb_false_r. by apply N.eqb_neq.
Qed.

Lemma delete_char_absent c s : c ∉ s -> replace s [c] [] = s.
Proof. intros. by apply replace_absent, contains_char_false. Qed.

(** Deleting never lengthens, and shortens when there is an occurrence. *)
Lemma length_replace_go old k s :
  (length (replace_go old [] k s) <= length s)%nat.
Proof.
  revert k. induction s as [|a s IH]; intros k; [done|].
  cbn [replace_go]. destruct k as [|k].
  - destruct (startswith old (a :: s)); cbn [app length].
    + specialize (IH (length old - 1)%nat). lia.
    + specialize (IH 0%nat). lia.
  - cbn [length]. specialize (IH k). lia.
Qed.

Lemma length_replace_go_lt old s :
  contains old s = true -> old ≠ [] ->
  (length (replace_go old [] 0 s) < length s)%nat.
Proof.
  intros H Hold. induction s as [|a s IH].
  - destruct old; [done|]. discriminate.
  - cbn [contains] in H. cbn [replace_go].
    destruct (startswith old (a :: s)); cbn [app length].
    + pose proof (length_replace_go old (length old - 1) s). lia.
    + cbn [orb] in H. specialize (IH H). lia.
Qed.

Lemma words_go_word cur s :
  Forall (fun c => isspace c = false) cur -> Forall word (words_go cur s).
Proof.
  revert cur. induction s as [|c s IH]; intros cur Hcur; cbn [words_go].
  - destruct cur; constructor; [by split|constructor].
  - destruct (isspace c) eqn:Hc.
    + destruct cur; [by apply IH|].
      constructor; [done|]. by apply IH.
    + apply IH, Forall_app. split; [done|]. by constructor.
Qed.

Lemma split_ws_word s : Forall word (split_ws s).
Proof. by apply words_go_word. Qed.

Lemma words_go_app w cur s :
  Forall (fun c => isspace c = false) w ->
  words_go cur (w ++ s) = words_go (cur ++ w) s.
Proof.
  revert cur. induction w as [|a w IH]; intros cur Hw.
  - by rewrite app_nil_r.
  - apply Forall_cons in Hw as [Ha Hw]. cbn [app words_go]. rewrite Ha.
    rewrite IH by done. by rewrite <- app_assoc.
Qed.

(** Splitting a joined list of words gives the words back. *)
Lemma split_ws_join ws :
  Forall word ws -> split_ws (join (str " ") ws) = ws.
Proof.
  unfold split_ws. induction ws as [|w ws IH]; intros Hws; [done|].
  apply Forall_cons in Hws as [[Hne Hw] Hws].
  destruct ws as [|w2 ws].
  - cbn [join]. pose proof (words_go_app w [] [] Hw) as E.
    rewrite app_nil_r in E. rewrite E. cbn [app words_go]. by destruct w.
  - change (join (str " ") (w :: w2 :: ws))
      with (w ++ 32 :: join (str " ") (w2 :: ws)).
    rewrite words_go_app by done. cbn [app words_go].
    change (isspace 32) with true. cbv iota.
    destruct w; [done|]. f_equal. by apply IH.
Qed.

Lemma skip_while_head f s :
  (forall c, head s = Some c -> f c = false) -> skip_while f s = s.
Proof.
  destruct s as [|c s]; [done|]. intros H. cbn [skip_while].
  by rewrite (H c).
Qed.

Lemma strip_with_id f s :
  (forall c, head s = Some c -> f c = false) ->
  (forall c, last s = Some c -> f c = false) ->
  strip_with f s = s.
Proof.
  intros Hh Hl. unfold strip_with. rewrite (skip_while_head f s Hh).
  rewrite skip_while_head; [apply reverse_involutive|].
  intros c Hc. apply Hl. by rewrite <- (reverse_involutive s), last_reverse.
Qed.

Lemma head_join sep ws c :
  Forall word ws -> head (join sep ws) = Some c -> isspace c = false.
Proof.
  destruct ws as [|w ws]; [done|].
  intros [[Hne Hw] _]%Forall_cons.
  destruct w as [|a w]; [done|]. apply Forall_cons in Hw as [Ha _].
  destruct ws; cbn; congruence.
Qed.

Lemma last_join sep ws c :
  Forall word ws -> last (join sep ws) = Some c -> isspace c = false.
Proof.
  induction ws as [|w ws IH]; [done|].
  intros [[Hne Hw] Hws]%Forall_cons.
  destruct ws as [|w2 ws].
  - cbn [join]. intros Hc%last_Some_elem_of.
    by eapply Forall_forall in Hw.
  - change (join sep (w :: w2 :: ws))
      with (w ++ sep ++ join sep (w2 :: ws)).
    rewrite !last_app.
    destruct (last (join sep (w2 :: ws))) as [c'|] eqn:E.
    + intros [= <-]. by apply IH.
    + apply last_None in E. apply Forall_cons in Hws as [[Hne2 _] _].
      destruct w2; [done|]. destruct ws; discriminate.
Qed.

Lemma strip_join ws :
  Forall word ws -> strip (join (str " ") ws) = join (str " ") ws.
Proof.
  intros Hws. apply strip_with_id; intros c Hc.
  - by eapply head_join.
  - by eapply last_join.
Qed.

Lemma elem_of_words_go cur s w c :
  w ∈ words_go cur s -> c ∈ w -> c ∈ cur ∨ c ∈ s.
Proof.
  revert cur. induction s as [|a s IH]; intros cur; cbn [words_go].
  - destruct cur; [by intros ?%elem_of_nil|].
    intros ->%list_elem_of_singleton. by left.
  - destruct (isspace a).
    + destruct cur.
      * intros Hw Hc. destruct (IH _ Hw Hc) as [?%elem_of_nil|?]; [done|].
        right. by right.
      * intros [->|Hw]%elem_of_cons Hc; [by left|].
        destruct (IH _ Hw Hc) as [?%elem_of_nil|?]; [done|].
        right. by right.
    + intros Hw Hc.
      destruct (IH _ Hw Hc) as [[?| ->%list_elem_of_singleton]%elem_of_app|?].
      * by left.
      * right. by left.
      * right. by right.
Qed.

Lemma elem_of_join sep ws c :
  c ∈ join sep ws -> c ∈ sep ∨ exists w, w ∈ ws ∧ c ∈ w.
Proof.
  induction ws as [|w ws IH]; [by intros ?%elem_of_nil|].
  destruct ws as [|w2 ws].
  - cbn [join]. intros Hc. right. exists w. split; [by left|done].
  - change (join sep (w :: w2 :: ws))
      with (w ++ sep ++ join sep (w2 :: ws)).
    intros [Hc|[Hc|Hc]%elem_of_app]%elem_of_app.
    + right. exists w. split; [by left|done].
    + by left.
    + destruct (IH Hc) as [?|(w' & Hw' & ?)]; [by left|].
      right. exists w'. split; [by right|done].
Qed.

(** Normalising white space introduces no code point but the space. *)
Lemma elem_of_normalise s c :
  c ∈ strip (join (str " ") (split_ws s)) -> c = 32 ∨ c ∈ s.
Proof.
  rewrite strip_join by apply split_ws_word.
  intros [Hc|(w & Hw & Hc)]%elem_of_join.
  - left. by apply list_elem_of_singleton in Hc.
  - right. by destruct (elem_of_words_go _ _ _ _ Hw Hc) as [?%elem_of_nil|?].
Qed.

Lemma length_join_words cur s :
  (length (join (str " ") (words_go cur s)) <= length cur + length s)%nat.
Proof.
  revert cur. induction s as [|a s IH]; intros cur; cbn [words_go].
  - destruct cur; cbn [join length]; lia.
  - destruct (isspace a).
    + destruct cur as [|b cur].
      * specialize (IH []). cbn [length] in *. lia.
      * specialize (IH []). cbn [length] in IH.
        destruct (words_go [] s) as [|w2 ws] eqn:E.
        { cbn [join length]. lia. }
        change (join (str " ") ((b :: cur) :: w2 :: ws))
          with ((b :: cur) ++ 32 :: join (str " ") (w2 :: ws)).
        rewrite length_app. cbn [length] in *. lia.
    + specialize (IH (cur ++ [a])). rewrite length_app in IH.
      cbn [length] in *. lia.
Qed.

Lemma length_normalise s :
  (length (strip (join (str " ") (split_ws s))) <= length s)%nat.
Proof.
  rewrite strip_join by apply split_ws_word.
  apply (length_join_words [] s).
Qed.

(** [s.find(sub) == -1] says that [sub] does not occur in [s]. *)
Lemma find_from_nonneg i sub s : (0 <= i)%Z -> (find_from i sub s = -1)%Z ->
  contains sub s = false.
Proof.
  revert i. induction s as [|c s IH]; intros i Hi; cbn [find_from contains].
  - destruct (startswith sub []); [lia|done].
  - destruct (startswith sub (c :: s)); [lia|].
    intros H. cbn [orb]. apply (IH (i + 1)%Z); [lia|done].
Qed.

Lemma find_from_absent i sub s :
  contains sub s = false -> (find_from i sub s = -1)%Z.
Proof.
  revert i. induction s as [|c s IH]; intros i; cbn [find_from contains].
  - by destruct (startswith sub []).
  - destruct (startswith sub (c :: s)); [done|]. cbn [orb]. apply IH.
Qed.

Lemma find_absent s sub : (find s sub = -1)%Z <-> contains sub s = false.
Proof.
  split; [by apply find_from_nonneg|apply find_from_absent].
Qed.

End StringFacts.

(** ** The text normaliser *)

Section Cleantxt.

Implicit Types (s : list N).

(** The result of [cleantxt] contains none of the three glyphs ... *)
Lemma cleantxt_no_glyph s c :
  c ∈ [8482; 174; 8225] -> c ∉ cleantxt s.
Proof.
  intros Hc Hin. unfold cleantxt in Hin.
  apply elem_of_normalise in Hin as [->|Hin].
  { rewrite !elem_of_cons, elem_of_nil in Hc.
    destruct Hc as [?|[?|[?|[]]]]; discriminate. }
  apply elem_of_cons in Hc as [->|Hc].
  { do 2 apply elem_of_delete in Hin; [|done..].
    by apply not_elem_of_delete_char in Hin. }
  apply elem_of_cons in Hc as [->|Hc].
  { apply elem_of_delete in Hin; [|done].
    by apply not_elem_of_delete_char in Hin. }
  apply list_elem_of_singleton in Hc as ->.
  by apply not_elem_of_delete_char in Hin.
Qed.

(** ... and is a list of words joined by single spaces. *)
Lemma cleantxt_words s :
  exists ws, Forall word ws ∧ cleantxt s = join (str " ") ws.
Proof.
  unfold cleantxt. eexists. split; [apply split_ws_word|].
  apply strip_join, split_ws_word.
Qed.

Lemma length_cleantxt s :
  (length (cleantxt s) <= length (replace s (str "Intel") []))%nat.
Proof.
  unfold cleantxt. etrans; [apply length_normalise|].
  etrans; [apply length_replace_go|].
  etrans; [apply length_replace_go|]. apply length_replace_go.
Qed.

(** On a normalised text without "Intel", [cleantxt] changes nothing. *)
Lemma cleantxt_fixed s :
  contains (str "Intel") (cleantxt s) = false ->
  cleantxt (cleantxt s) = cleantxt s.
Proof.
  intros HI. destruct (cleantxt_words s) as (ws & Hws & E).
  pose proof (cleantxt_no_glyph s) as Hg. revert HI Hg. rewrite E.
  intros HI Hg. unfold cleantxt at 1.
  rewrite (replace_absent _ _ _ HI).
  rewrite (delete_char_absent 8482) by (apply Hg; set_solver).
  rewrite (delete_char_absent 174) by (apply Hg; set_solver).
  rewrite (delete_char_absent 8225) by (apply Hg; set_solver).
  rewrite split_ws_join by done. by apply strip_join.
Qed.

Lemma cleantxt_shrinks s :
  contains (str "Intel") s = true ->
  (length (cleantxt s) < length s)%nat.
Proof.
  intros HI. pose proof (length_cleantxt s) as Hle.
  change (replace s (str "Intel") [])
    with (replace_go (str "Intel") [] 0 s) in Hle.
  assert (str "Intel" ≠ []) as Hne by done.
  pose proof (length_replace_go_lt (str "Intel") s HI Hne). lia.
Qed.

End Cleantxt.

(** ** The loops of [parse_specs] *)

Section Loops.

Context {A S : Type} (step : S -> A -> result S).

Lemma for_each_app st l1 l2 :
  for_each step st (l1 ++ l2)
  = st' ← for_each step st l1; for_each step st' l2.
Proof.
  revert st. induction l1 as [|x l1 IH]; intros st; [done|].
  cbn [app for_each]. destruct (step st x); [apply IH|done].
Qed.

(** An exception raised at some element ends the loop with it. *)
Lemma for_each_raise st l1 x l2 st1 e :
  for_each step st l1 = Ok st1 -> step st1 x = Raise e ->
  for_each step st (l1 ++ x :: l2) = Raise e.
Proof.
  intros H1 Hx. rewrite for_each_app, H1. cbn. by rewrite Hx.
Qed.

Lemma for_each_cons_Ok st x l st' :
  for_each step st (x :: l) = Ok st'
  <-> exists st1, step st x = Ok st1 ∧ for_each step st1 l = Ok st'.
Proof.
  cbn [for_each]. destruct (step st x) as [st1|]; cbn.
  - split; [eauto|]. by intros (? & [= <-] & ?).
  - split; [done|]. by intros (? & [=] & _).
Qed.

Lemma for_each_app_Ok st l1 l2 st' :
  for_each step st (l1 ++ l2) = Ok st'
  <-> exists st1, for_each step st l1 = Ok st1
                  ∧ for_each step st1 l2 = Ok st'.
Proof.
  rewrite for_each_app. destruct (for_each step st l1) as [st1|]; cbn.
  - split; [eauto|]. by intros (? & [= <-] & ?).
  - split; [done|]. by intros (? & [=] & _).
Qed.

(** A property kept by every iteration is kept by the loop. *)
Lemma for_each_invariant (P : S -> Prop) st l st' :
  (forall st x st', x ∈ l -> P st -> step st x = Ok st' -> P st') ->
  P st -> for_each step st l = Ok st' -> P st'.
Proof.
  revert st. induction l as [|x l IH]; intros st Hstep HP; cbn [for_each].
  - by intros [= <-].
  - destruct (step st x) as [st1|] eqn:E; [|done]. cbn.
    apply IH.
    + intros ? y ? Hy. apply Hstep. by right.
    + eapply Hstep; [by left|done..].
Qed.

End Loops.

(** ** Rows and sections *)

Section Collect.

Context {Conv : Type} `{!Collaborators Conv}.

Local Abbreviation specs_t := (gmap (option (list N)) (TopValue Conv)).
Local Abbreviation legends_t := (gmap (option (list N)) (gmap (list N) (list N))).

Implicit Types (specs : specs_t) (legends : legends_t) (data : Row).
Implicit Types (header h : option (list N)) (k v : list N).
Implicit Types (st : specs_t * legends_t).

Lemma get_section_Ok specs h d :
  get_section specs h = Ok d <-> specs !! h = Some (TSection d).
Proof.
  unfold get_section. destruct (specs !! h) as [[]|]; naive_solver.
Qed.

(** [process_row] returns exactly in the three ways of [row_effect]. *)
Lemma process_row_Ok header specs legends data specs' legends' :
  process_row header (specs, legends) data = Ok (specs', legends')
  <-> row_effect header specs legends data specs' legends'.
Proof.
  unfold process_row. split.
  - destruct (tech_label data) as [raw_k|] eqn:Hk; [|done].
    case_bool_decide as Hskip.
    { intros [= <- <-]. by eapply row_key_skipped. }
    destruct (legends !! header) as [lg|] eqn:Hlg; [|done].
    destruct (tech_data data) as [raw_v|] eqn:Hv; [|done].
    case_bool_decide as Hskipv.
    { intros [= <- <-]. by eapply row_value_skipped. }
    destruct (typed_value _ _) as [x|] eqn:Hx; [|done]. cbn.
    destruct (get_section specs header) as [d|] eqn:Hd; [|done]. cbn.
    intros [= <- <-]. apply get_section_Ok in Hd.
    by eapply row_stored.
  - intros [raw_k Hk Hskip|raw_k lg raw_v Hk Hskip Hlg Hv Hskipv
           |raw_k lg raw_v x d Hk Hskip Hlg Hv Hskipv Hx Hd]; rewrite Hk.
    + by rewrite bool_decide_eq_true_2.
    + rewrite bool_decide_eq_false_2, Hlg, Hv by done.
      by rewrite bool_decide_eq_true_2.
    + rewrite bool_decide_eq_false_2, Hlg, Hv by done.
      rewrite bool_decide_eq_false_2, Hx by done. cbn.
      apply get_section_Ok in Hd. by rewrite Hd.
Qed.

Lemma process_section_Ok st section st' :
  process_section st section = Ok st'
  <-> (is_download section ∧ st' = st)
      ∨ (¬ is_download section
         ∧ for_each (process_row (heading section))
             (init_header (heading section) st) (tech_rows section)
           = Ok st').
Proof.
  unfold process_section. case_decide as Hd; split.
  - intros [= <-]. by left.
  - by intros [[_ ->]|[? _]].
  - intros ?. by right.
  - by intros [[? _]|[_ ?]].
Qed.

Lemma grows_refl st : grows st st.
Proof. by repeat split. Qed.

Lemma grows_trans st1 st2 st3 : grows st1 st2 -> grows st2 st3 -> grows st1 st3.
Proof.
  intros (F1 & D1 & L1) (F2 & D2 & L2). repeat split.
  - intros ?%F2. by apply F1.
  - intros ?%F1. by apply F2.
  - auto.
  - auto.
Qed.

(** One row: both dictionaries keep their set of headers. *)
Lemma row_effect_grows header specs legends data specs' legends' :
  row_effect header specs legends data specs' legends' ->
  grows (specs, legends) (specs', legends')
  ∧ (forall h, is_Some (specs' !! h) <-> is_Some (specs !! h))
  ∧ (forall h, is_Some (legends' !! h) <-> is_Some (legends !! h)).
Proof.
  assert (forall lg k0,
    legends !! header = Some lg ->
    forall h k, legend_has legends h k ->
      legend_has (<[header := <[k0 := cleantxt k0]> lg]> legends) h k)
    as Hleg.
  { intros lg k0 Hlg h k (lg0 & Hlg0 & Hk). unfold legend_has.
    destruct (decide (h = header)) as [->|Hne]; simplify_map_eq; [|eauto].
    eexists. split; [done|].
    destruct (decide (k = k0)) as [->|]; by simplify_map_eq. }
  assert (forall (m : legends_t) lg lg',
    m !! header = Some lg ->
    forall h, is_Some (<[header := lg']> m !! h) <-> is_Some (m !! h))
    as Hdom.
  { intros m lg lg' Hlg h.
    destruct (decide (h = header)) as [->|Hne]; simplify_map_eq; [|done].
    split; eauto. }
  intros [raw_k Hk Hskip|raw_k lg raw_v Hk Hskip Hlg Hv Hskipv
         |raw_k lg raw_v x d Hk Hskip Hlg Hv Hskipv Hx Hd].
  - split; [apply grows_refl|done].
  - split; [split; [|split]|split]; cbn; [done|done|by eapply Hleg|done|].
    by eapply Hdom.
  - assert (forall h, is_Some (<[header := TSection (<[strip raw_k := x]> d)]>
                                 specs !! h) <-> is_Some (specs !! h)) as Hs.
    { intros h. destruct (decide (h = header)) as [->|Hne]; simplify_map_eq;
        [|done]. split; eauto. }
    split; [split; [|split]|split]; cbn;
      [|apply Hs|by eapply Hleg|apply Hs|by eapply Hdom].
    intros h v. destruct (decide (h = header)) as [->|Hne]; simplify_map_eq;
      [|done]. split; intros [=].
Qed.

(** The rows of one section. *)
Lemma rows_grow header st rows st' :
  for_each (process_row header) st rows = Ok st' ->
  grows st st'
  ∧ (forall h, is_Some (st'.1 !! h) <-> is_Some (st.1 !! h))
  ∧ (forall h, is_Some (st'.2 !! h) <-> is_Some (st.2 !! h)).
Proof.
  apply (for_each_invariant _ (fun s =>
    grows st s
    ∧ (forall h, is_Some (s.1 !! h) <-> is_Some (st.1 !! h))
    ∧ (forall h, is_Some (s.2 !! h) <-> is_Some (st.2 !! h)))).
  - intros [specs1 legends1] data [specs2 legends2] _ (G & Ds & Dl) Hrow.
    apply process_row_Ok, row_effect_grows in Hrow as (G' & Ds' & Dl').
    split; [by eapply grows_trans|]. cbn in *.
    split; intros h; [by rewrite Ds'|by rewrite Dl'].
  - split; [apply grows_refl|done].
Qed.

Lemma init_header_grows header st :
  legends_within st ->
  grows st (init_header header st)
  ∧ legends_within (init_header header st)
  ∧ (forall h, is_Some ((init_header header st).1 !! h)
               <-> is_Some (st.1 !! h) ∨ h = header).
Proof.
  destruct st as [specs legends]. unfold init_header, legends_within. cbn.
  intros W. destruct (specs !! header) as [x|] eqn:E; cbn.
  - split; [apply grows_refl|]. split; [done|].
    intros h. split; [by left|]. intros [?| ->]; [done|by rewrite E].
  - assert (legends !! header = None) as El.
    { destruct (legends !! header) eqn:El; [|done].
      destruct (W header) as [? ?]; [by rewrite El|congruence]. }
    split; [split; [|split]|split]; cbn.
    + intros h v. destruct (decide (h = header)) as [->|];
        simplify_map_eq; [|done]. rewrite E. split; intros [=].
    + intros h Hh. destruct (decide (h = header)) as [->|];
        by simplify_map_eq.
    + intros h k (lg & Hlg & Hk). exists lg.
      destruct (decide (h = header)) as [->|]; by simplify_map_eq.
    + intros h. destruct (decide (h = header)) as [->|];
        simplify_map_eq; [eauto|apply W].
    + intros h. destruct (decide (h = header)) as [->|];
        simplify_map_eq; [split; eauto|]. split; [by left|by intros [?|?]].
Qed.

Lemma headers_of_cons section sections :
  headers_of (section :: sections)
  = if decide (is_download section) then headers_of sections
    else heading section :: headers_of sections.
Proof.
  unfold headers_of. rewrite filter_cons.
  destruct (decide (is_download section)) as [Hd|Hd].
  - by rewrite decide_False by tauto.
  - by rewrite decide_True.
Qed.

(** All sections: the keys of [specs] at the end are those it started
    with and the headers, and the plain fields are untouched. *)
Lemma sections_grow st sections st' :
  legends_within st ->
  for_each process_section st sections = Ok st' ->
  grows st st'
  ∧ legends_within st'
  ∧ (forall h, is_Some (st'.1 !! h)
               <-> is_Some (st.1 !! h) ∨ h ∈ headers_of sections).
Proof.
  revert st. induction sections as [|section sections IH]; intros st W.
  - intros [= <-]. split; [apply grows_refl|]. split; [done|].
    intros h. split; [by left|]. by intros [?|?%elem_of_nil].
  - rewrite headers_of_cons.
    intros (st1 & E & Hrest)%for_each_cons_Ok.
    apply process_section_Ok in E as [[Hd ->]|[Hd Hrows]].
    + rewrite decide_True by done. by apply IH.
    + rewrite decide_False by done.
      destruct (init_header_grows (heading section) st W) as (G0 & W0 & D0).
      apply rows_grow in Hrows as (G1 & Ds1 & Dl1).
      assert (legends_within st1) as W1.
      { intros h. rewrite Dl1, Ds1. apply W0. }
      destruct (IH st1 W1 Hrest) as (G2 & W2 & D2).
      split; [eauto using grows_trans|]. split; [done|].
      intros h. rewrite D2, Ds1, D0, elem_of_cons. tauto.
Qed.

Lemma row_effect_traced sections section header specs legends data
    specs' legends' :
  section ∈ sections -> ¬ is_download section -> heading section = header ->
  data ∈ tech_rows section ->
  row_effect header specs legends data specs' legends' ->
  traced sections (specs, legends) -> traced sections (specs', legends').
Proof.
  intros Hsec Hd Hh Hdata Heff [Ts Tl]. cbn in Ts, Tl.
  assert (forall raw_k lg, tech_label data = Some raw_k ->
    strip raw_k ∉ skipIfKey -> legends !! header = Some lg ->
    forall h lg' k t,
      <[header := <[strip raw_k := cleantxt (strip raw_k)]> lg]> legends !! h
        = Some lg' -> lg' !! k = Some t ->
      t = cleantxt k ∧ (k ∉ skipIfKey)
      ∧ (exists data, row_of sections h k data))
    as Hleg.
  { intros raw_k lg Hk Hskip Hlg h lg' k t.
    destruct (decide (h = header)) as [->|]; simplify_map_eq;
      [|by apply Tl].
    intros Hlg' Ht. simplify_eq.
    destruct (decide (k = strip raw_k)) as [->|]; simplify_map_eq;
      [|by eapply Tl].
    split; [done|]. split; [done|]. by exists data, section, raw_k. }
  destruct Heff as [raw_k Hk Hskip|raw_k lg raw_v Hk Hskip Hlg Hv Hskipv
                   |raw_k lg raw_v x d Hk Hskip Hlg Hv Hskipv Hx Hd0].
  - by split.
  - split; [done|]. by eapply Hleg.
  - split; [|by eapply Hleg]. cbn. intros h d' k x'.
    destruct (decide (h = heading section)) as [->|]; simplify_map_eq;
      [|by apply Ts].
    intros Hd' Hx'. simplify_eq.
    destruct (decide (k = strip raw_k)) as [->|]; simplify_map_eq;
      [|by eapply Ts].
    split; [done|]. exists data, (cleantxt (strip raw_v)).
    split; [by exists section, raw_k|].
    unfold value_text. by rewrite Hv.
Qed.

Lemma init_header_traced sections header st :
  traced sections st -> traced sections (init_header header st).
Proof.
  destruct st as [specs legends]. unfold init_header. cbn.
  destruct (specs !! header) eqn:E; [done|]. intros [Ts Tl].
  cbn in Ts, Tl. split; cbn.
  - intros h d k x. destruct (decide (h = header)) as [->|];
      simplify_map_eq; [|by apply Ts]. by intros [= <-] ?.
  - intros h lg k t. destruct (decide (h = header)) as [->|];
      simplify_map_eq; [|by apply Tl]. by intros [= <-] ?.
Qed.

Lemma sections_traced sections st st' :
  traced sections st ->
  for_each process_section st sections = Ok st' ->
  traced sections st'.
Proof.
  intros T. apply (for_each_invariant _ (traced sections)); [|done].
  clear st st' T. intros st section st' Hsec T.
  intros [[Hd ->]|[Hd Hrows]]%process_section_Ok; [done|].
  revert Hrows.
  apply (for_each_invariant _ (traced sections));
    [|by apply init_header_traced].
  intros [specs1 legends1] data [specs2 legends2] Hdata T1 Hrow.
  apply process_row_Ok in Hrow. by eapply row_effect_traced.
Qed.

(** A row whose key is not skipped leaves its legend entry behind. *)
Lemma rows_legend header st rows st' data raw_k :
  for_each (process_row header) st rows = Ok st' ->
  data ∈ rows -> tech_label data = Some raw_k ->
  strip raw_k ∉ skipIfKey ->
  legend_has st'.2 header (strip raw_k).
Proof.
  intros Hrows (r1 & r2 & ->)%list_elem_of_split Hk Hskip.
  apply for_each_app_Ok in Hrows as (stA & _ & Hrows).
  apply for_each_cons_Ok in Hrows as (stB & Hrow & Hrows).
  apply rows_grow in Hrows as ((_ & _ & Hl) & _). apply Hl. clear Hl.
  destruct stA as [specsA legendsA], stB as [specsB legendsB].
  apply process_row_Ok in Hrow.
  destruct Hrow as [raw_k' Hk' Hskip'|raw_k' lg raw_v Hk' _ Hlg _ _
                   |raw_k' lg raw_v x d Hk' _ Hlg _ _ _ _];
    rewrite Hk in Hk'; injection Hk' as <-; [done|..]; cbn;
    (eexists; split; [apply lookup_insert_eq|apply lookup_insert_eq]).
Qed.

Lemma sections_legend st sections st' section data raw_k :
  legends_within st ->
  for_each process_section st sections = Ok st' ->
  section ∈ sections -> ¬ is_download section ->
  data ∈ tech_rows section -> tech_label data = Some raw_k ->
  strip raw_k ∉ skipIfKey ->
  legend_has st'.2 (heading section) (strip raw_k).
Proof.
  intros W Hall (l1 & l2 & ->)%list_elem_of_split Hd Hdata Hk Hskip.
  apply for_each_app_Ok in Hall as (st1 & H1 & Hall).
  apply for_each_cons_Ok in Hall as (st2 & Hsec & Hall).
  apply sections_grow in H1 as (_ & W1 & _); [|done].
  apply process_section_Ok in Hsec as [[? _]|[_ Hrows]]; [done|].
  pose proof (rows_legend _ _ _ _ _ _ Hrows Hdata Hk Hskip) as Hleg.
  destruct (init_header_grows (heading section) st1 W1) as (_ & W0 & _).
  apply rows_grow in Hrows as (_ & Ds & Dl).
  assert (legends_within st2) as W2.
  { intros h. rewrite Dl, Ds. apply W0. }
  apply sections_grow in Hall as ((_ & _ & Hl) & _); [|done]. by apply Hl.
Qed.

(** ** [collect]: the dictionaries when the loop is over *)

Lemma collect_Ok response specs legends :
  collect response = Ok (specs, legends)
  <-> exists path seg arkcpuid t,
        urlsplit_path (url response) = Ok path
        ∧ split (strip_chars path (str "/")) (str "/") !! 6%nat = Some seg
        ∧ py_int seg = Ok arkcpuid
        ∧ current_page response = Some t
        ∧ for_each process_section
            (initial_specs response (cleantxt t) arkcpuid, ∅)
            (spec_divs response) = Ok (specs, legends).
Proof.
  unfold collect. split.
  - destruct (urlsplit_path (url response)) as [path|]; [cbn|done].
    destruct (split _ _ !! 6%nat) as [seg|] eqn:Hseg; [cbn|done].
    destruct (py_int seg) as [arkcpuid|] eqn:Hint; [cbn|done].
    destruct (current_page response) as [t|]; [cbn|done].
    intros Hloop. by exists path, seg, arkcpuid, t.
  - intros (path & seg & arkcpuid & t & -> & Hseg & Hint & -> & Hloop).
    cbn. rewrite Hseg. cbn. rewrite Hint. by cbn.
Qed.

Lemma initial_specs_lookup response cpuname arkcpuid h :
  is_Some (initial_specs (Conv:=Conv) response cpuname arkcpuid !! h)
  <-> h ∈ [key "URL"; key "name"; key "arkid"].
Proof.
  unfold initial_specs. rewrite !elem_of_cons, elem_of_nil.
  destruct (decide (h = key "URL")) as [->|];
    [rewrite lookup_insert_eq; split; eauto|rewrite lookup_insert_ne by done].
  destruct (decide (h = key "name")) as [->|];
    [rewrite lookup_insert_eq; split; eauto|rewrite lookup_insert_ne by done].
  destruct (decide (h = key "arkid")) as [->|];
    [rewrite lookup_insert_eq; split; eauto|rewrite lookup_insert_ne by done].
  rewrite lookup_empty. split; [by intros [? ?]|tauto].
Qed.

(** What holds of the two dictionaries when [collect] returns them. *)
Lemma collect_facts response specs legends :
  collect response = Ok (specs, legends) ->
  (exists path seg arkcpuid t,
      urlsplit_path (url response) = Ok path
      ∧ split (strip_chars path (str "/")) (str "/") !! 6%nat = Some seg
      ∧ py_int seg = Ok arkcpuid
      ∧ current_page response = Some t
      ∧ forall h x, specs !! h = Some (TField x)
                    <-> initial_specs response (cleantxt t) arkcpuid !! h
                        = Some (TField x))
  ∧ (forall h, is_Some (specs !! h)
               <-> h ∈ [key "URL"; key "name"; key "arkid"]
                   ∨ h ∈ headers_of (spec_divs response))
  ∧ traced (spec_divs response) (specs, legends)
  ∧ (forall section data raw_k,
        section ∈ spec_divs response -> ¬ is_download section ->
        data ∈ tech_rows section -> tech_label data = Some raw_k ->
        strip raw_k ∉ skipIfKey ->
        legend_has legends (heading section) (strip raw_k)).
Proof.
  intros (path & seg & arkcpuid & t & ? & ? & ? & ? & Hloop)%collect_Ok.
  assert (legends_within
            (initial_specs (Conv:=Conv) response (cleantxt t) arkcpuid,
             (∅ : legends_t))) as W.
  { intros h. cbn. rewrite lookup_empty. by intros [? ?]. }
  destruct (sections_grow _ _ _ W Hloop) as ((F & _ & _) & _ & D).
  cbn [fst snd] in F, D.
  split; [by exists path, seg, arkcpuid, t|].
  split; [intros h; by rewrite D, initial_specs_lookup|].
  split.
  - eapply sections_traced; [|done]. split; cbn.
    + intros h d k x Hh. unfold initial_specs in Hh.
      repeat (rewrite lookup_insert in Hh; case_decide; [done|]).
      by rewrite lookup_empty in Hh.
    + intros h lg k x. by rewrite lookup_empty.
  - intros section data raw_k Hsec Hd Hdata Hk Hskip.
    by eapply (sections_legend _ _ _ _ _ _ W Hloop).
Qed.

(** A header other than the three initial keys is a key of [specs]
    exactly when some block that is not skipped carries it, and it then
    holds a section. *)
Lemma collect_header response specs legends h :
  collect response = Ok (specs, legends) ->
  h ∉ [key "URL"; key "name"; key "arkid"] ->
  (h ∈ headers_of (spec_divs response)
     -> exists d, specs !! h = Some (TSection d))
  ∧ (h ∉ headers_of (spec_divs response) -> specs !! h = None).
Proof.
  intros ((path & seg & z & t & _ & _ & _ & _ & F) & D & _)%collect_facts Hh.
  assert (forall x, specs !! h ≠ Some (TField x)) as Hfield.
  { intros x Hx%F. apply Hh, (initial_specs_lookup response (cleantxt t) z).
    by rewrite Hx. }
  split.
  - intros Hin. destruct (proj2 (D h)) as [[x|d] Hx]; [by right| |by eauto].
    by destruct (Hfield x).
  - intros Hout. destruct (specs !! h) as [x|] eqn:Hx; [|done].
    destruct (proj1 (D h)) as [?|?]; [by rewrite Hx|done..].
Qed.

Lemma sections_keep_legends st sections st' :
  sections_have_legends st ->
  for_each process_section st sections = Ok st' ->
  sections_have_legends st'.
Proof.
  intros J. apply (for_each_invariant _ sections_have_legends); [|done].
  clear. intros st section st' _ J.
  intros [[_ ->]|[_ Hrows]]%process_section_Ok; [done|].
  apply rows_grow in Hrows as (_ & Ds & Dl).
  intros h. rewrite Ds, Dl. clear Ds Dl st'.
  destruct st as [specs legends]. unfold init_header. cbn.
  destruct (specs !! heading section) eqn:E; [apply J|]. cbn.
  destruct (decide (h = heading section)) as [->|].
  - rewrite !lookup_insert_eq. eauto.
  - rewrite !lookup_insert_ne by done. apply J.
Qed.

(** An exception raised at a row that is reached ends [collect]. *)
Lemma reaches_raise response section data st e :
  reaches response section data st ->
  process_row (heading section) st data = Raise e ->
  collect response = Raise e.
Proof.
  intros (path & seg & z & t & pre & post & st1 & rows_pre & rows_post
          & Hpath & Hseg & Hint & Ht & Hdivs & Hpre & Hd & Hrows & Hst) He.
  unfold collect. rewrite Hpath. cbn. rewrite Hseg. cbn. rewrite Hint. cbn.
  rewrite Ht. cbn. rewrite Hdivs.
  eapply for_each_raise; [done|].
  unfold process_section. rewrite decide_False by done. rewrite Hrows.
  by eapply for_each_raise.
Qed.

(** At a row that is reached, the header has its legend group, unless it
    is one of the three initial keys. *)
Lemma reaches_legend response section data st :
  reaches response section data st ->
  heading section ∉ [key "URL"; key "name"; key "arkid"] ->
  is_Some (st.2 !! heading section).
Proof.
  intros (path & seg & z & t & pre & post & st1 & rows_pre & rows_post
          & _ & _ & _ & _ & _ & Hpre & _ & _ & Hst) Hh.
  apply rows_grow in Hst as (_ & _ & ->).
  apply sections_keep_legends in Hpre.
  2: { intros h Hs. left. by eapply initial_specs_lookup. }
  destruct st1 as [specs legends]. unfold init_header. cbn.
  destruct (specs !! heading section) eqn:E; cbn.
  - destruct (Hpre (heading section)) as [?|?]; [cbn; by rewrite E|done..].
  - rewrite lookup_insert_eq. eauto.
Qed.

End Collect.

(** ** [emit]: the items of one page *)

Section Emit.

Context {Conv : Type} `{!Collaborators Conv}.

Local Abbreviation specs_t := (gmap (option (list N)) (TopValue Conv)).
Local Abbreviation legends_t := (gmap (option (list N)) (gmap (list N) (list N))).

Implicit Types (specs base : specs_t) (legends : legends_t).

Lemma key_inj a b : key a = key b -> str a = str b.
Proof. by intros [=]. Qed.

Lemma yield_sockets_eq base sockets :
  yield_sockets base sockets
  = (socket_record base <$> sockets, Ok (last_socket base sockets)).
Proof.
  revert base. induction sockets as [|socket rest IH]; intros base; [done|].
  cbn [yield_sockets]. rewrite IH. cbn. f_equal. f_equal.
  apply list_fmap_ext. intros _ sk _. unfold socket_record.
  by rewrite insert_insert_eq.
Qed.

Lemma last_socket_lookup_ne base sockets h :
  h ≠ key "socket" -> last_socket base sockets !! h = base !! h.
Proof.
  intros Hh. revert base. induction sockets as [|socket rest IH];
    intros base; [done|].
  cbn. unfold last_socket in IH. rewrite IH. by apply lookup_insert_ne.
Qed.

Lemma hoist_id_eq specs es :
  specs !! key "Essentials" = Some (TSection es) ->
  hoist_id specs (bool_decide (is_Some (es !! str "Processor Number")))
  = Ok (hoisted specs es).
Proof.
  intros He. unfold hoist_id, hoisted, get_section.
  destruct (es !! str "Processor Number") as [v|] eqn:Hv.
  - rewrite bool_decide_eq_true_2, He by eauto. cbn. rewrite Hv. cbn.
    rewrite lookup_insert_ne by (intros ?%key_inj; discriminate).
    by rewrite He.
  - by rewrite bool_decide_eq_false_2 by (by intros [? ?]).
Qed.

Lemma emit_sockets_eq base ps :
  base !! key "Package Specifications" = Some (TSection ps) ->
  emit_sockets base
  = match ps !! str "Sockets Supported" with
    | Some (String v) =>
        let base' :=
          <[key "Package Specifications" :=
              TSection (delete (str "Sockets Supported") ps)]> base in
        (socket_record base' <$> split v (str ", "),
         Ok (last_socket base' (split v (str ", "))))
    | Some _ => ([], Raise AttributeError)
    | None => ([], Raise (KeyError (key "Sockets Supported")))
    end.
Proof.
  intros Hp. unfold emit_sockets, get_section. rewrite Hp. cbn.
  destruct (ps !! str "Sockets Supported") as [[]|]; try reflexivity.
  cbn. by rewrite yield_sockets_eq.
Qed.

Lemma emit_no_package specs legends :
  specs !! key "Package Specifications" = None ->
  emit specs legends
  = ([CPULegendItem legends],
     Raise (KeyError (key "Package Specifications"))).
Proof.
  intros H. unfold emit, get_section. rewrite H. reflexivity.
Qed.

Lemma emit_no_essentials specs legends ps :
  specs !! key "Package Specifications" = Some (TSection ps) ->
  specs !! key "Essentials" = None ->
  emit specs legends
  = ([CPULegendItem legends], Raise (KeyError (key "Essentials"))).
Proof.
  intros Hp He. unfold emit, get_section. rewrite Hp, He. reflexivity.
Qed.

Lemma hoisted_lookup_ne specs es h :
  h ≠ key "Essentials" -> h ≠ key "id" ->
  hoisted specs es !! h = specs !! h.
Proof.
  intros. unfold hoisted. destruct (es !! str "Processor Number");
    by simplify_map_eq.
Qed.

(** With both sections present, what [emit] yields is decided by the
    "Sockets Supported" entry. *)
Lemma emit_sections specs legends ps es :
  specs !! key "Package Specifications" = Some (TSection ps) ->
  specs !! key "Essentials" = Some (TSection es) ->
  emit specs legends
  = match ps !! str "Sockets Supported" with
    | None =>
        ([CPULegendItem legends; CPUSpecsUnknownItem (hoisted specs es)],
         Ok (hoisted specs es))
    | Some (String v) =>
        let base :=
          <[key "Package Specifications" :=
              TSection (delete (str "Sockets Supported") ps)]>
            (hoisted specs es) in
        (CPULegendItem legends
           :: (socket_record base <$> split v (str ", ")),
         Ok (last_socket base (split v (str ", "))))
    | Some _ => ([CPULegendItem legends], Raise AttributeError)
    end.
Proof.
  intros Hp He.
  assert (hoisted specs es !! key "Package Specifications"
          = Some (TSection ps)) as Hp'.
  { rewrite hoisted_lookup_ne; [done|..]; intros ?%key_inj; discriminate. }
  unfold emit. unfold get_section at 1 2. rewrite Hp, He. cbn.
  rewrite (hoist_id_eq _ _ He). cbn.
  destruct (ps !! str "Sockets Supported") as [x|] eqn:Hs.
  - rewrite bool_decide_eq_true_2 by eauto. cbn.
    rewrite (emit_sockets_eq _ _ Hp'), Hs. by destruct x.
  - by rewrite bool_decide_eq_false_2 by (by intros [? ?]).
Qed.

(** The sections of a product record are those of [specs] as [emit]
    leaves it: no section is written once a product item is built. *)
Lemma emit_record_stable specs legends final item m h d :
  (emit specs legends).2 = Ok final ->
  item ∈ (emit specs legends).1 -> product_record item = Some m ->
  m !! h = Some (TSection d) -> final !! h = Some (TSection d).
Proof.
  destruct (specs !! key "Package Specifications") as [[x|ps]|] eqn:Hp.
  - unfold emit, get_section. by rewrite Hp.
  - destruct (specs !! key "Essentials") as [[x|es]|] eqn:He.
    + unfold emit, get_section. by rewrite Hp, He.
    + rewrite (emit_sections _ _ _ _ Hp He).
      destruct (ps !! str "Sockets Supported") as [[| |v| |]|]; try done.
      * cbn. intros [= <-] [->|Hin]%elem_of_cons; [done|].
        apply list_elem_of_fmap in Hin as (socket & -> & _).
        intros [= <-].
        destruct (decide (h = key "socket")) as [->|];
          [by rewrite lookup_insert_eq|].
        by rewrite lookup_insert_ne, last_socket_lookup_ne.
      * cbn. intros [= <-] [->|Hin]%elem_of_cons; [done|].
        apply list_elem_of_singleton in Hin as ->. by intros [= <-].
    + by rewrite (emit_no_essentials _ _ _ Hp He).
  - by rewrite (emit_no_package _ _ Hp).
Qed.

Lemma parse_specs_Ok response specs legends :
  collect response = Ok (specs, legends) ->
  parse_specs response
  = ((emit specs legends).1, (fun _ => tt) <$> (emit specs legends).2).
Proof.
  intros H. unfold parse_specs. rewrite H. cbn -[emit].
  destruct (emit specs legends) as [items [final|e]]; cbn; [|done].
  by rewrite app_nil_r.
Qed.

Lemma parse_specs_Raise response e :
  collect response = Raise e -> parse_specs response = ([], Raise e).
Proof. intros H. unfold parse_specs. by rewrite H. Qed.

(** Where a product record among the items of [emit] comes from. *)
Lemma emit_records specs legends item m :
  item ∈ (emit specs legends).1 -> product_record item = Some m ->
  exists ps es,
    specs !! key "Package Specifications" = Some (TSection ps)
    ∧ specs !! key "Essentials" = Some (TSection es)
    ∧ ((ps !! str "Sockets Supported" = None
        ∧ item = CPUSpecsUnknownItem m ∧ m = hoisted specs es)
       ∨ (exists v socket,
             ps !! str "Sockets Supported" = Some (String v)
             ∧ socket ∈ split v (str ", ")
             ∧ item = CPUSpecsItem m
             ∧ m = <[key "socket" := TField (String socket)]>
                     (<[key "Package Specifications" :=
                          TSection (delete (str "Sockets Supported") ps)]>
                        (hoisted specs es)))).
Proof.
  destruct (specs !! key "Package Specifications") as [[x|ps]|] eqn:Hp.
  - unfold emit, get_section. rewrite Hp. cbn.
    intros ->%list_elem_of_singleton. discriminate.
  - destruct (specs !! key "Essentials") as [[x|es]|] eqn:He.
    + unfold emit, get_section. rewrite Hp, He. cbn.
      intros ->%list_elem_of_singleton. discriminate.
    + rewrite (emit_sections _ _ _ _ Hp He). intros Hin Hm.
      exists ps, es. split; [done|]. split; [done|].
      destruct (ps !! str "Sockets Supported") as [x|] eqn:Hs.
      * right. destruct x as [| |v| |];
          try (apply list_elem_of_singleton in Hin as ->; discriminate).
        cbn [fst] in Hin. apply elem_of_cons in Hin as [->|Hin];
          [discriminate|].
        apply list_elem_of_fmap in Hin as (socket & -> & Hin).
        injection Hm as <-. by exists v, socket.
      * left. split; [done|]. cbn [fst] in Hin.
        apply elem_of_cons in Hin as [->|Hin]; [discriminate|].
        apply list_elem_of_singleton in Hin as ->. injection Hm as <-.
        done.
    + rewrite (emit_no_essentials _ _ _ Hp He).
      intros ->%list_elem_of_singleton. discriminate.
  - rewrite (emit_no_package _ _ Hp).
    intros ->%list_elem_of_singleton. discriminate.
Qed.

(** The entries of a product record, read off [specs]. *)
Lemma emit_record_lookup specs legends item m h :
  item ∈ (emit specs legends).1 -> product_record item = Some m ->
  h ≠ key "socket" -> h ≠ key "id" ->
  h ≠ key "Essentials" -> h ≠ key "Package Specifications" ->
  m !! h = specs !! h.
Proof.
  intros Hin Hm N1 N2 N3 N4.
  destruct (emit_records _ _ _ _ Hin Hm)
    as (ps & es & Hp & He & [(_ & _ & ->)|(v & socket & _ & _ & _ & ->)]).
  - by apply hoisted_lookup_ne.
  - rewrite !lookup_insert_ne by done. by apply hoisted_lookup_ne.
Qed.

(** Every section entry of a product record is an entry of the same
    section of [specs]. *)
Lemma emit_record_section specs legends item m h d k x :
  item ∈ (emit specs legends).1 -> product_record item = Some m ->
  m !! h = Some (TSection d) -> d !! k = Some x ->
  exists d0, specs !! h = Some (TSection d0) ∧ d0 !! k = Some x.
Proof.
  intros Hin Hm Hd Hx.
  assert (forall es d1,
    specs !! key "Essentials" = Some (TSection es) ->
    hoisted specs es !! h = Some (TSection d1) -> d1 !! k = Some x ->
    exists d0, specs !! h = Some (TSection d0) ∧ d0 !! k = Some x) as Hh.
  { intros es d1 He. unfold hoisted.
    destruct (es !! str "Processor Number") as [v|]; [|by eauto].
    destruct (decide (h = key "Essentials")) as [->|];
      [rewrite lookup_insert_eq|rewrite lookup_insert_ne by done].
    - intros [= <-] Hk. exists es. split; [done|].
      by apply lookup_delete_Some in Hk as [_ ?].
    - destruct (decide (h = key "id")) as [->|];
        [by rewrite lookup_insert_eq|rewrite lookup_insert_ne by done].
      by eauto. }
  destruct (emit_records _ _ _ _ Hin Hm)
    as (ps & es & Hp & He & [(_ & _ & ->)|(v & socket & _ & _ & _ & ->)]).
  - by eapply Hh.
  - revert Hd.
    destruct (decide (h = key "socket")) as [->|];
      [by rewrite lookup_insert_eq|rewrite lookup_insert_ne by done].
    destruct (decide (h = key "Package Specifications")) as [->|];
      [rewrite lookup_insert_eq|rewrite lookup_insert_ne by done].
    + intros [= <-]. exists ps. split; [done|].
      by apply lookup_delete_Some in Hx as [_ ?].
    + intros Hd. by eapply Hh.
Qed.

(** The items of [emit]: the legend record, then product records only. *)
Lemma emit_shape specs legends :
  exists rest,
    (emit specs legends).1 = CPULegendItem legends :: rest
    ∧ Forall (fun i => is_Some (product_record i)) rest.
Proof.
  destruct (specs !! key "Package Specifications") as [[x|ps]|] eqn:Hp.
  - exists []. unfold emit, get_section. rewrite Hp. by split.
  - destruct (specs !! key "Essentials") as [[x|es]|] eqn:He.
    + exists []. unfold emit, get_section. rewrite Hp, He. by split.
    + rewrite (emit_sections _ _ _ _ Hp He).
      destruct (ps !! str "Sockets Supported") as [[| |v| |]|];
        try (exists []; by split).
      * eexists. split; [done|]. apply Forall_fmap, Forall_true.
        intros socket. cbn. eauto.
      * eexists. split; [done|]. repeat constructor. cbn. eauto.
    + exists []. rewrite (emit_no_essentials _ _ _ Hp He). by split.
  - exists []. rewrite (emit_no_package _ _ Hp). by split.
Qed.

End Emit.

(** * The statements of the specification *)

(** ** Text normaliser *)

(** C3 (as the code has it).  [cleantxt] returns for every string: its
    result is a list of words joined by single spaces.  It is idempotent
    exactly on the inputs whose result contains no "Intel":
    [cleantxt (cleantxt s) = cleantxt s] if and only if "Intel" does not
    occur in [cleantxt s]. *)
Theorem cleantxt_idempotent_iff (s : list N) :
  (exists ws, Forall word ws ∧ cleantxt s = join (str " ") ws)
  ∧ (cleantxt (cleantxt s) = cleantxt s
     <-> contains (str "Intel") (cleantxt s) = false).
Proof.
  split; [apply cleantxt_words|]. split.
  - intros Heq. destruct (contains (str "Intel") (cleantxt s)) eqn:E; [|done].
    apply cleantxt_shrinks in E. rewrite Heq in E. lia.
  - apply cleantxt_fixed.
Qed.

(** C3, counterexample.  Deleting the inner "Intel" of "IntIntelel" leaves
    "Intel", which a second pass deletes: [cleantxt] is not idempotent. *)
Lemma cleantxt_not_idempotent :
  cleantxt (str "IntIntelel") = str "Intel"
  ∧ cleantxt (cleantxt (str "IntIntelel")) = []
  ∧ cleantxt (cleantxt (str "IntIntelel")) ≠ cleantxt (str "IntIntelel").
Proof. vm_compute. repeat split; [done..|discriminate]. Qed.

(** ** Spider constructors *)

(** C9.  A seed URL without "/products/" makes [CpuSpecSpider.__init__]
    raise [ValueError], and so does a seed URL without "/products/" or
    without "/series/" for [SeriesSpider.__init__]; with the markers
    present the constructors return, with the URL as the only start URL. *)
Theorem seed_url_validation (u : list N) :
  (contains (str "/products/") u = false ->
     exists msg, CpuSpecSpider_init (Some u) = Raise (ValueError msg))
  ∧ (contains (str "/products/") u = true ->
       CpuSpecSpider_init (Some u) = Ok [u])
  ∧ (contains (str "/products/") u = false
     ∨ contains (str "/series/") u = false ->
       exists msg, SeriesSpider_init (Some u) = Raise (ValueError msg))
  ∧ (contains (str "/products/") u = true ->
     contains (str "/series/") u = true ->
       SeriesSpider_init (Some u) = Ok [u]).
Proof.
  assert (forall m, contains (str m) u = true -> m ≠ ""%string -> u ≠ []) as Hne.
  { intros m Hm Hnm ->. by destruct m. }
  unfold CpuSpecSpider_init, SeriesSpider_init.
  destruct (decide (Some u = Some [])) as [[= ->]|Hu].
  { repeat split; try (intros; by eexists); by intros [=]. }
  repeat split.
  - intros ?%find_absent. rewrite decide_True by done. by eexists.
  - intros Hp. rewrite decide_False; [done|].
    rewrite find_absent. by rewrite Hp.
  - intros [?%find_absent|?%find_absent].
    + rewrite decide_True by done. by eexists.
    + case_decide; [by eexists|]. rewrite decide_True by done. by eexists.
  - intros Hp Hs. rewrite !decide_False; [done|..];
      rewrite find_absent; congruence.
Qed.

(** Two different literal keys; a literal key is none of a list of them. *)
Ltac key_neq := intros ?%key_inj; discriminate.
Ltac key_notin :=
  let H := fresh in
  intros H;
  repeat (apply elem_of_cons in H as [H|H];
          [apply key_inj in H; discriminate|]);
  by apply elem_of_nil in H.

(** ** Product pages *)

Section Statements.

Context {Conv : Type} `{!Collaborators Conv}.

Local Abbreviation specs_t := (gmap (option (list N)) (TopValue Conv)).
Local Abbreviation legends_t := (gmap (option (list N)) (gmap (list N) (list N))).

(** C6 (as the code has it).  [arkid] is what [int] returns for the
    seventh "/"-separated segment of the URL path, whatever its sign.
    If [urlsplit] or [int] raises, or there is no seventh segment
    ([IndexError]), [parse_specs] raises before it yields anything;
    otherwise every product record it yields carries that integer. *)
Theorem arkid_from_url (response : Response) :
  match urlsplit_path (url response) with
  | Raise e => parse_specs response = ([], Raise e)
  | Ok path =>
      match split (strip_chars path (str "/")) (str "/") !! 6%nat with
      | None => parse_specs response = ([], Raise IndexError)
      | Some seg =>
          match py_int seg with
          | Raise e => parse_specs response = ([], Raise e)
          | Ok z =>
              forall item m,
                item ∈ (parse_specs response).1 ->
                product_record item = Some m ->
                m !! key "arkid" = Some (TField (Number z))
          end
      end
  end.
Proof.
  destruct (urlsplit_path (url response)) as [path|e] eqn:Hpath.
  2: { apply parse_specs_Raise. unfold collect. by rewrite Hpath. }
  destruct (split _ _ !! 6%nat) as [seg|] eqn:Hseg.
  2: { apply parse_specs_Raise. unfold collect. rewrite Hpath. cbn.
       by rewrite Hseg. }
  destruct (py_int seg) as [z|e] eqn:Hint.
  2: { apply parse_specs_Raise. unfold collect. rewrite Hpath. cbn.
       rewrite Hseg. cbn. by rewrite Hint. }
  intros item m Hin Hm.
  destruct (collect response) as [[specs legends]|e] eqn:Hc.
  2: { rewrite (parse_specs_Raise _ _ Hc) in Hin. by apply elem_of_nil in Hin. }
  rewrite (parse_specs_Ok _ _ _ Hc) in Hin. cbn [fst] in Hin.
  rewrite (emit_record_lookup _ _ _ _ _ Hin Hm)
    by (intros ?%key_inj; discriminate).
  apply collect_facts in Hc
    as ((path' & seg' & z' & t & Hp' & Hs' & Hi' & _ & F) & _).
  rewrite Hpath in Hp'. injection Hp' as <-.
  rewrite Hseg in Hs'. injection Hs' as <-.
  rewrite Hint in Hi'. injection Hi' as <-.
  apply F. unfold initial_specs.
  rewrite !lookup_insert_ne by (intros ?%key_inj; discriminate).
  apply lookup_insert_eq.
Qed.

(** C10.  The legend record is yielded before the two sections are
    looked up.  On a page without a "Package Specifications" block, and
    on one with it but without an "Essentials" block, [parse_specs]
    yields the legend record alone and then raises [KeyError]; the
    unknown-socket record is yielded only when the "Package
    Specifications" section exists and has no "Sockets Supported". *)
Theorem legend_precedes_section_lookup
    (response : Response) (specs : specs_t) (legends : legends_t) :
  collect response = Ok (specs, legends) ->
  (key "Package Specifications" ∉ headers_of (spec_divs response) ->
     parse_specs response
     = ([CPULegendItem legends],
        Raise (KeyError (key "Package Specifications"))))
  ∧ (key "Package Specifications" ∈ headers_of (spec_divs response) ->
     key "Essentials" ∉ headers_of (spec_divs response) ->
     parse_specs response
     = ([CPULegendItem legends], Raise (KeyError (key "Essentials"))))
  ∧ (forall m,
        CPUSpecsUnknownItem m ∈ (parse_specs response).1 ->
        exists ps,
          specs !! key "Package Specifications" = Some (TSection ps)
          ∧ ps !! str "Sockets Supported" = None).
Proof.
  intros Hc. rewrite (parse_specs_Ok _ _ _ Hc).
  destruct (collect_header _ _ _ (key "Package Specifications") Hc)
    as [Hp1 Hp0]; [key_notin|].
  destruct (collect_header _ _ _ (key "Essentials") Hc)
    as [He1 He0]; [key_notin|].
  split; [|split].
  - intros Hp%Hp0. by rewrite (emit_no_package _ _ Hp).
  - intros [ps Hp]%Hp1 He%He0. by rewrite (emit_no_essentials _ _ _ Hp He).
  - intros m Hin. cbn [fst] in Hin.
    destruct (emit_records _ _ _ m Hin eq_refl)
      as (ps & es & Hp & _ & [(Hs & _)|(? & ? & _ & _ & [=] & _)]).
    by exists ps.
Qed.

(** C1 (as the code has it).  On a page whose dictionaries are collected
    without error and that has a "Package Specifications" block and an
    "Essentials" block: if the "Package Specifications" section holds a
    string under "Sockets Supported", the legend record is followed by
    one [CPUSpecsItem] per piece of that string split on ", ", in order,
    each the same dictionary but for its [socket], and in it "Sockets
    Supported" is gone from the section; if the key is absent from the
    section, the legend record is followed by one [CPUSpecsUnknownItem],
    which has a [socket] entry only on a page with a block headed
    "socket". *)
Theorem socket_expansion
    (response : Response) (specs : specs_t) (legends : legends_t) :
  collect response = Ok (specs, legends) ->
  key "Package Specifications" ∈ headers_of (spec_divs response) ->
  key "Essentials" ∈ headers_of (spec_divs response) ->
  exists ps es,
    specs !! key "Package Specifications" = Some (TSection ps)
    ∧ specs !! key "Essentials" = Some (TSection es)
    ∧ (forall v,
          ps !! str "Sockets Supported" = Some (String v) ->
          parse_specs response
          = (CPULegendItem legends
               :: (socket_record
                     (<[key "Package Specifications" :=
                          TSection (delete (str "Sockets Supported") ps)]>
                        (hoisted specs es))
                     <$> split v (str ", ")),
             Ok tt))
    ∧ (ps !! str "Sockets Supported" = None ->
       parse_specs response
       = ([CPULegendItem legends; CPUSpecsUnknownItem (hoisted specs es)],
          Ok tt)
       ∧ (is_Some (hoisted specs es !! key "socket")
          <-> key "socket" ∈ headers_of (spec_divs response))).
Proof.
  intros Hc Hpack Hess. rewrite (parse_specs_Ok _ _ _ Hc).
  destruct (collect_header _ _ _ (key "Package Specifications") Hc)
    as [Hp1 _]; [key_notin|].
  destruct (Hp1 Hpack) as [ps Hp].
  destruct (collect_header _ _ _ (key "Essentials") Hc) as [He1 _];
    [key_notin|].
  destruct (He1 Hess) as [es He]. exists ps, es.
  split; [done|]. split; [done|].
  rewrite (emit_sections _ _ _ _ Hp He). split.
  - by intros v ->.
  - intros ->. split; [done|].
    rewrite hoisted_lookup_ne by key_neq.
    destruct (collect_header _ _ _ (key "socket") Hc) as [Hs1 Hs0];
      [key_notin|].
    split.
    + intros Hsome.
      destruct (decide (key "socket" ∈ headers_of (spec_divs response)))
        as [|Hout]; [done|].
      rewrite (Hs0 Hout) in Hsome. by destruct Hsome.
    + intros [d ->]%Hs1. eauto.
Qed.

(** C5 (as the code has it).  Every product record that [parse_specs]
    yields comes from a page with an "Essentials" section.  If that
    section holds "Processor Number", the record carries its value as
    [id] and its "Essentials" section is the page's without the key.
    Otherwise the "Essentials" section is unchanged and [id] is what
    [specs] has under "id": nothing, unless the page has a block headed
    "id". *)
Theorem id_hoisting
    (response : Response) (specs : specs_t) (legends : legends_t)
    (item : Item Conv) (m : specs_t) :
  collect response = Ok (specs, legends) ->
  item ∈ (parse_specs response).1 ->
  product_record item = Some m ->
  exists es,
    specs !! key "Essentials" = Some (TSection es)
    ∧ match es !! str "Processor Number" with
      | Some v =>
          m !! key "id" = Some (TField v)
          ∧ m !! key "Essentials"
            = Some (TSection (delete (str "Processor Number") es))
      | None =>
          m !! key "Essentials" = Some (TSection es)
          ∧ m !! key "id" = specs !! key "id"
          ∧ (is_Some (m !! key "id")
             <-> key "id" ∈ headers_of (spec_divs response))
      end.
Proof.
  intros Hc Hin Hm. rewrite (parse_specs_Ok _ _ _ Hc) in Hin.
  cbn [fst] in Hin.
  destruct (emit_records _ _ _ _ Hin Hm) as (ps & es & Hp & He & Hcase).
  exists es. split; [done|].
  assert (m !! key "id" = hoisted specs es !! key "id"
          ∧ m !! key "Essentials" = hoisted specs es !! key "Essentials")
    as [-> ->].
  { destruct Hcase as [(_ & _ & ->)|(v & socket & _ & _ & _ & ->)]; [done|].
    by rewrite !lookup_insert_ne by key_neq. }
  unfold hoisted. destruct (es !! str "Processor Number") as [v|].
  - rewrite lookup_insert_eq, lookup_insert_ne, lookup_insert_eq by key_neq.
    done.
  - split; [done|]. split; [done|].
    destruct (collect_header _ _ _ (key "id") Hc) as [Hi1 Hi0];
      [key_notin|].
    split.
    + intros Hsome.
      destruct (decide (key "id" ∈ headers_of (spec_divs response)))
        as [|Hout]; [done|].
      rewrite (Hi0 Hout) in Hsome. by destruct Hsome.
    + intros [d ->]%Hi1. eauto.
Qed.

(** A listing page without the breadcrumb node: [.get()] is [None] and
    [.strip()] raises, before any request. *)
Lemma parse_series_no_crumb (response : Response) :
  hidden_crumb response = None ->
  parse_series response = ([], Raise AttributeError).
Proof. intros H. unfold parse_series. by rewrite H. Qed.

(** C8 (as the code has it).  On a listing page that has the breadcrumb
    node and whose breadcrumb text, stripped, is not "Processors",
    [parse_series] raises [CloseSpider] and has yielded no request.  On
    a page without the breadcrumb node it raises [AttributeError], also
    with no request yielded.  So a request is yielded only from a page
    whose breadcrumb, stripped, reads "Processors". *)
Theorem series_breadcrumb_guard (response : Response) :
  (forall crumb,
      hidden_crumb response = Some crumb ->
      strip crumb ≠ str "Processors" ->
      parse_series response
      = ([], Raise (CloseSpider (str "Processors not found in crumb"))))
  ∧ (hidden_crumb response = None ->
     parse_series response = ([], Raise AttributeError))
  ∧ (forall req,
        req ∈ (parse_series response).1 ->
        exists crumb,
          hidden_crumb response = Some crumb
          ∧ strip crumb = str "Processors").
Proof.
  split; [|split].
  - intros crumb Hcrumb Hne. unfold parse_series. rewrite Hcrumb. cbn.
    by rewrite decide_True.
  - apply parse_series_no_crumb.
  - intros req. unfold parse_series.
    destruct (hidden_crumb response) as [crumb|]; cbn;
      [|by intros ?%elem_of_nil].
    destruct (decide (strip crumb ≠ str "Processors")) as [|Heq];
      [by intros ?%elem_of_nil|].
    intros _. exists crumb. split; [done|].
    by destruct (decide (strip crumb = str "Processors")).
Qed.

(** C2.  For a row that is not skipped, processed when its header has a
    section and a legend group, the value stored under its key is:
    [true] for the text "Yes", [false] for "No", [None] for the empty
    text, whatever the key; otherwise the converter's result when the
    key is in [convertTo]; otherwise the cleaned text itself. *)
Theorem value_typing
    (header : option (list N)) (specs : specs_t) (legends : legends_t)
    (data : Row) (raw_k raw_v : list N)
    (lg : gmap (list N) (list N)) (d : gmap (list N) (SpecValue Conv)) :
  tech_label data = Some raw_k ->
  tech_data data = Some raw_v ->
  strip raw_k ∉ skipIfKey ->
  cleantxt (strip raw_v) ∉ skipIfValue ->
  legends !! header = Some lg ->
  specs !! header = Some (TSection d) ->
  let k := strip raw_k in
  let v := cleantxt (strip raw_v) in
  let stored x :=
    process_row header (specs, legends) data
    = Ok (<[header := TSection (<[k := x]> d)]> specs,
          <[header := <[k := cleantxt k]> lg]> legends) in
  (v = str "Yes" -> stored (Boolean true))
  ∧ (v = str "No" -> stored (Boolean false))
  ∧ (v = [] -> stored Null)
  ∧ (v ≠ str "Yes" -> v ≠ str "No" -> v ≠ [] ->
     forall c x, convertTo !! k = Some c -> call_converter c v = Ok x ->
                 stored x)
  ∧ (v ≠ str "Yes" -> v ≠ str "No" -> v ≠ [] ->
     convertTo !! k = None -> stored (String v)).
Proof.
  intros Hk Hv Hskip Hskipv Hlg Hd k v stored.
  assert (forall x, typed_value k v = Ok x -> stored x) as Hstored.
  { intros x Hx. apply process_row_Ok. by eapply row_stored. }
  unfold typed_value in Hstored.
  split; [|split; [|split; [|split]]].
  - intros E. apply Hstored. by rewrite decide_True.
  - intros E. apply Hstored. rewrite E. reflexivity.
  - intros E. apply Hstored. rewrite E. reflexivity.
  - intros N1 N2 N3 c x Hc Hx. apply Hstored.
    by rewrite !decide_False, Hc, Hx.
  - intros N1 N2 N3 Hc. apply Hstored. by rewrite !decide_False, Hc.
Qed.

(** C4 (as the code has it).  A row whose key is in [skipIfKey] changes
    neither dictionary, and no such key is in any group of the legend
    record or any section of a product record.  A row whose key is not
    skipped and whose cleaned value is in [skipIfValue] only sets its
    legend entry and leaves the section as it was; on a page that is
    collected without error every row with a key that is not skipped has
    its legend entry in the legend record, which is the first item
    yielded, and every value in a section of a product record was stored
    by a row of that header and key whose cleaned value is not in
    [skipIfValue].  So when every row of a header and key has a cleaned
    value in [skipIfValue], no section of a product record under that
    header holds the key. *)
Theorem skip_rules :
  (forall header st data raw_k,
      tech_label data = Some raw_k -> strip raw_k ∈ skipIfKey ->
      process_row header st data = Ok st)
  ∧ (forall header (specs : specs_t) (legends : legends_t) lg data
            raw_k raw_v,
        tech_label data = Some raw_k -> strip raw_k ∉ skipIfKey ->
        tech_data data = Some raw_v ->
        cleantxt (strip raw_v) ∈ skipIfValue ->
        legends !! header = Some lg ->
        process_row header (specs, legends) data
        = Ok (specs,
              <[header := <[strip raw_k := cleantxt (strip raw_k)]> lg]>
                legends))
  ∧ (forall response (specs : specs_t) (legends : legends_t),
        collect response = Ok (specs, legends) ->
        (exists rest,
            (parse_specs response).1 = CPULegendItem legends :: rest
            ∧ Forall (fun i => is_Some (product_record i)) rest)
        ∧ (forall h lg k,
              legends !! h = Some lg -> is_Some (lg !! k) ->
              k ∉ skipIfKey)
        ∧ (forall section data raw_k,
              section ∈ spec_divs response -> ¬ is_download section ->
              data ∈ tech_rows section -> tech_label data = Some raw_k ->
              strip raw_k ∉ skipIfKey ->
              legend_has legends (heading section) (strip raw_k))
        ∧ (forall item m h d k x,
              item ∈ (parse_specs response).1 ->
              product_record item = Some m ->
              m !! h = Some (TSection d) -> d !! k = Some x ->
              (k ∉ skipIfKey)
              ∧ (exists data v,
                    row_of (spec_divs response) h k data
                    ∧ value_text data = Some v
                    ∧ (v ∉ skipIfValue)))
        ∧ (forall h k,
              (forall data v,
                  row_of (spec_divs response) h k data ->
                  value_text data = Some v -> v ∈ skipIfValue) ->
              forall item m d,
                item ∈ (parse_specs response).1 ->
                product_record item = Some m ->
                m !! h = Some (TSection d) -> d !! k = None)).
Proof.
  split; [|split].
  - intros header [specs legends] data raw_k Hk Hskip.
    apply process_row_Ok. by eapply row_key_skipped.
  - intros header specs legends lg data raw_k raw_v Hk Hskip Hv Hskipv Hlg.
    apply process_row_Ok. by eapply row_value_skipped.
  - intros response specs legends Hc.
    rewrite (parse_specs_Ok _ _ _ Hc). cbn [fst].
    destruct (collect_facts _ _ _ Hc) as (_ & _ & [Ts Tl] & Hleg).
    cbn [fst snd] in Ts, Tl.
    split; [apply emit_shape|]. split; [|split; [done|split]].
    + intros h lg k Hlg [t Ht]. by destruct (Tl _ _ _ _ Hlg Ht) as (_ & ? & _).
    + intros item m h d k x Hin Hm Hd Hx.
      destruct (emit_record_section _ _ _ _ _ _ _ _ Hin Hm Hd Hx)
        as (d0 & Hd0 & Hx0).
      destruct (Ts _ _ _ _ Hd0 Hx0) as (? & data & v & ? & ? & ? & _).
      split; [done|]. by exists data, v.
    + intros h k Hall item m d Hin Hm Hd.
      destruct (d !! k) as [x|] eqn:Hx; [|done].
      destruct (emit_record_section _ _ _ _ _ _ _ _ Hin Hm Hd Hx)
        as (d0 & Hd0 & Hx0).
      destruct (Ts _ _ _ _ Hd0 Hx0) as (_ & data & v & Hrow & Hv & Hout & _).
      by destruct (Hout (Hall _ _ Hrow Hv)).
Qed.

(** C7.  When [parse_specs] arrives at a row whose key is not skipped
    and has a converter, whose cleaned value is not skipped and is none
    of "Yes", "No" and the empty text, and the converter raises
    [ValueError], then [parse_specs] raises [ValueError] with the message
    "FAILED: <key>: <value>" and has yielded nothing.  The exception is
    not [CloseSpider]. *)
Theorem converter_failure
    (response : Response) (section : SpecDiv) (data : Row)
    (st : specs_t * legends_t) (raw_k raw_v : list N)
    (c : converter) (msg : list N) :
  reaches response section data st ->
  heading section ∉ [key "URL"; key "name"; key "arkid"] ->
  tech_label data = Some raw_k ->
  tech_data data = Some raw_v ->
  let k := strip raw_k in
  let v := cleantxt (strip raw_v) in
  k ∉ skipIfKey -> v ∉ skipIfValue ->
  v ≠ str "Yes" -> v ≠ str "No" -> v ≠ [] ->
  convertTo !! k = Some c ->
  call_converter c v = Raise (ValueError msg) ->
  parse_specs response
  = ([], Raise (ValueError (str "FAILED: " ++ k ++ str ": " ++ v)))
  ∧ (forall reason,
        (parse_specs response).2 ≠ Raise (CloseSpider reason)).
Proof.
  intros Hreach Hh Hk Hv k v Hskip Hskipv N1 N2 N3 Hc Hfail.
  assert (parse_specs response
          = ([], Raise (ValueError (str "FAILED: " ++ k ++ str ": " ++ v))))
    as ->; [|by split].
  apply parse_specs_Raise. eapply reaches_raise; [done|].
  destruct (reaches_legend _ _ _ _ Hreach Hh) as [lg Hlg].
  destruct st as [specs legends]. cbn in Hlg.
  unfold process_row. rewrite Hk, Hv, Hlg.
  rewrite !bool_decide_eq_false_2 by done.
  fold k v. unfold typed_value.
  by rewrite !decide_False, Hc, Hfail by done.
Qed.

End Statements.

(** ** The statements on concrete pages *)

Import Concrete.

Ltac by_compute := vm_compute; reflexivity.
Ltac decide_by_compute := apply (bool_decide_unpack _); vm_compute; exact I.

(** C9, on a URL without "/products/", a product URL, and a series URL. *)
Lemma seed_url_validation_witness :
  (exists msg, CpuSpecSpider_init (Some (str "https://ark.intel.com/"))
               = Raise (ValueError msg))
  ∧ CpuSpecSpider_init (Some (str ark_url))
    = Ok [str ark_url]
  ∧ (exists msg, SeriesSpider_init (Some (str ark_url))
                 = Raise (ValueError msg))
  ∧ SeriesSpider_init (Some (str "/products/series/1"))
    = Ok [str "/products/series/1"].
Proof.
  split; [|split; [|split]].
  - destruct (seed_url_validation (str "https://ark.intel.com/"))
      as (H & _). apply H. reflexivity.
  - destruct (seed_url_validation (str ark_url)) as (_ & H & _).
    apply H. reflexivity.
  - destruct (seed_url_validation (str ark_url))
      as (_ & _ & H & _). apply H. right. reflexivity.
  - destruct (seed_url_validation (str "/products/series/1"))
      as (_ & _ & _ & H). apply H; reflexivity.
Defined.

Lemma collect_q6600 : collect page_q6600 = Ok (q6600_specs, q6600_legends).
Proof. by_compute. Qed.

Lemma parse_specs_q6600 :
  parse_specs page_q6600
  = ([ CPULegendItem q6600_legends;
       socket_record q6600_base (str "LGA775");
       socket_record q6600_base (str "PGA478") ], Ok tt).
Proof. by_compute. Qed.

(** C1, on a page with both sections and two sockets. *)
Lemma socket_expansion_witness :
  collect page_q6600 = Ok (q6600_specs, q6600_legends)
  ∧ key "Package Specifications" ∈ headers_of (spec_divs page_q6600)
  ∧ key "Essentials" ∈ headers_of (spec_divs page_q6600)
  ∧ q6600_specs !! key "Package Specifications" = Some (TSection q6600_package)
  ∧ q6600_package !! str "Sockets Supported"
    = Some (String (str "LGA775, PGA478"))
  ∧ parse_specs page_q6600
    = (CPULegendItem q6600_legends
         :: (socket_record q6600_base <$> [str "LGA775"; str "PGA478"]),
       Ok tt).
Proof.
  assert (key "Package Specifications" ∈ headers_of (spec_divs page_q6600))
    as Hpack by decide_by_compute.
  assert (key "Essentials" ∈ headers_of (spec_divs page_q6600)) as He
    by decide_by_compute.
  assert (q6600_specs !! key "Package Specifications"
          = Some (TSection q6600_package)) as Hp' by by_compute.
  assert (q6600_package !! str "Sockets Supported"
          = Some (String (str "LGA775, PGA478"))) as Hs by by_compute.
  repeat (split; [first [exact collect_q6600|assumption]|]).
  destruct (socket_expansion page_q6600 q6600_specs q6600_legends
              collect_q6600 Hpack He) as (ps & es & Hp & Hes & H & _).
  assert (q6600_specs !! key "Essentials"
          = Some (TSection q6600_essentials)) as Hes' by by_compute.
  rewrite Hp' in Hp. injection Hp as <-.
  rewrite Hes' in Hes. injection Hes as <-.
  exact (H _ Hs).
Defined.

(** C1, counterexample.  With "Sockets Supported" = "LGA775" but no
    "Essentials" block, no product record is yielded: [parse_specs] raises
    after the legend record.  Without "Sockets Supported" but with a block
    headed "socket", the unknown-socket record has a [socket] entry.
    Without a "Package Specifications" block the key is absent, and no
    product record is yielded either. *)
Lemma socket_expansion_counterexample :
  (exists specs legends,
      collect page_no_essentials = Ok (specs, legends)
      ∧ specs !! key "Package Specifications"
        = Some (TSection
                  {[ str "Sockets Supported" := String (str "LGA775") ]})
      ∧ split (str "LGA775") (str ", ") = [str "LGA775"]
      ∧ parse_specs page_no_essentials
        = ([CPULegendItem legends], Raise (KeyError (key "Essentials"))))
  ∧ (exists legends m,
        parse_specs page_socket_header
        = ([CPULegendItem legends; CPUSpecsUnknownItem m], Ok tt)
        ∧ m !! key "Package Specifications"
          = Some (TSection
                    {[ str "Package Size" := String (str "37.5mm") ]})
        ∧ m !! key "socket"
          = Some (TSection {[ str "Type" := String (str "LGA") ]}))
  ∧ (exists specs legends,
        collect page_essentials_only = Ok (specs, legends)
        ∧ specs !! key "Package Specifications" = None
        ∧ parse_specs page_essentials_only
          = ([CPULegendItem legends],
             Raise (KeyError (key "Package Specifications")))).
Proof.
  split; [|split].
  - do 2 eexists. repeat split; by_compute.
  - do 2 eexists. repeat split; by_compute.
  - do 2 eexists. repeat split; by_compute.
Qed.

(** C5, on a page with "Processor Number" = "Q6600". *)
Lemma id_hoisting_witness :
  socket_record q6600_base (str "LGA775") ∈ (parse_specs page_q6600).1
  ∧ exists m,
      product_record (socket_record q6600_base (str "LGA775")) = Some m
      ∧ m !! key "id" = Some (TField (String (str "Q6600")))
      ∧ m !! key "Essentials"
        = Some (TSection (delete (str "Processor Number") q6600_essentials)).
Proof.
  assert (socket_record q6600_base (str "LGA775")
            ∈ (parse_specs page_q6600).1) as Hin.
  { rewrite parse_specs_q6600. apply elem_of_cons. right.
    apply elem_of_cons. by left. }
  split; [exact Hin|]. eexists. split; [reflexivity|].
  destruct (id_hoisting page_q6600 q6600_specs q6600_legends _ _
              collect_q6600 Hin eq_refl) as (es & He & H).
  assert (q6600_specs !! key "Essentials"
          = Some (TSection q6600_essentials)) as He' by by_compute.
  rewrite He' in He. injection He as <-. exact H.
Defined.

(** C5, counterexample.  The "Essentials" section has no "Processor
    Number", yet the record has an [id] entry: the section of the block
    headed "id". *)
Lemma id_hoisting_counterexample :
  exists legends m,
    parse_specs page_id_header
    = ([CPULegendItem legends; CPUSpecsItem m], Ok tt)
    ∧ m !! key "Essentials"
      = Some (TSection {[ str "Status" := String (str "Launched") ]})
    ∧ m !! key "id" = Some (TSection {[ str "Note" := String (str "x") ]}).
Proof. do 2 eexists. repeat split; by_compute. Qed.

(** C6, counterexample.  The path segment "-7" is accepted by [int]: the
    record carries the [arkid] -7, which is not positive. *)
Lemma arkid_not_positive :
  exists legends m,
    parse_specs page_negative
    = ([CPULegendItem legends; CPUSpecsUnknownItem m], Ok tt)
    ∧ m !! key "arkid" = Some (TField (Number (-7)))
    ∧ ¬ (0 < -7)%Z.
Proof. do 2 eexists. repeat split; [by_compute..|lia]. Qed.

(** C10, on a page with "Package Specifications" and no "Essentials". *)
Lemma legend_precedes_section_lookup_witness :
  exists specs legends,
    collect page_no_essentials = Ok (specs, legends)
    ∧ key "Package Specifications" ∈ headers_of (spec_divs page_no_essentials)
    ∧ (key "Essentials" ∉ headers_of (spec_divs page_no_essentials))
    ∧ parse_specs page_no_essentials
      = ([CPULegendItem legends], Raise (KeyError (key "Essentials"))).
Proof.
  assert (exists specs legends,
             collect page_no_essentials = Ok (specs, legends))
    as (specs & legends & Hc) by (do 2 eexists; by_compute).
  assert (key "Package Specifications"
            ∈ headers_of (spec_divs page_no_essentials)) as Hp
    by decide_by_compute.
  assert (key "Essentials" ∉ headers_of (spec_divs page_no_essentials)) as He
    by decide_by_compute.
  exists specs, legends. repeat (split; [assumption|]).
  destruct (legend_precedes_section_lookup page_no_essentials specs legends Hc)
    as (_ & H & _).
  exact (H Hp He).
Defined.

(** C2, on the row "CoreCount" = "8", whose key has the converter [int]. *)
Lemma value_typing_witness :
  process_row (key "Essentials")
    ({[ key "Essentials" := TSection ∅ ]}, {[ key "Essentials" := ∅ ]})
    (row "CoreCount" " 8 ")
  = Ok ({[ key "Essentials" := TSection {[ str "CoreCount" := Number 8 ]} ]},
        {[ key "Essentials" := {[ str "CoreCount" := str "CoreCount" ]} ]}).
Proof.
  destruct (value_typing (key "Essentials")
              {[ key "Essentials" := TSection ∅ ]}
              {[ key "Essentials" := ∅ ]}
              (row "CoreCount" " 8 ") (str "CoreCount") (str " 8 ") ∅ ∅)
    as (_ & _ & _ & H & _);
    [reflexivity|reflexivity|decide_by_compute|decide_by_compute
    |by_compute|by_compute|].
  rewrite (H ltac:(by vm_compute) ltac:(by vm_compute) ltac:(by vm_compute)
             conv_int (Number 8) ltac:(by_compute) ltac:(by_compute)).
  by_compute.
Defined.

(** C4, on the rows of the page: "Code Name" is a skipped key, and
    "Status" has the skipped value "Datasheet". *)
Lemma skip_rules_witness :
  process_row (key "Essentials") (q6600_specs, q6600_legends)
    (row "Code Name" "Kentsfield")
  = Ok (q6600_specs, q6600_legends)
  ∧ legend_has q6600_legends (key "Essentials") (str "Status")
  ∧ q6600_essentials !! str "Status" = None.
Proof.
  destruct (skip_rules (Conv := list (list N))) as (Hkey & _ & Hpage).
  split; [|split].
  - apply (Hkey _ _ _ (str "Code Name")); [reflexivity|decide_by_compute].
  - destruct (Hpage page_q6600 _ _ collect_q6600) as (_ & _ & Hleg & _).
    apply (Hleg (div "Essentials"
                   [ row "Processor Number" "Q6600";
                     row "Code Name" "Kentsfield";
                     row "Status" "Datasheet" ])
             (row "Status" "Datasheet") (str "Status"));
      [by left|decide_by_compute|by do 2 right; left|reflexivity
      |decide_by_compute].
  - by_compute.
Defined.

(** C4, counterexample.  Two rows for "Status" under "Essentials"; the
    second has the placeholder value "Datasheet", and its key is not
    skipped.  The "Essentials" section of the record still holds a value
    for "Status": what the first row stored. *)
Lemma skip_rules_counterexample :
  row "Status" "Datasheet"
    ∈ [ row "Status" "Launched"; row "Status" "Datasheet" ]
  ∧ (strip (str "Status") ∉ skipIfKey)
  ∧ cleantxt (strip (str "Datasheet")) ∈ skipIfValue
  ∧ exists legends m,
      parse_specs page_status_twice
      = ([CPULegendItem legends; CPUSpecsUnknownItem m], Ok tt)
      ∧ legend_has legends (key "Essentials") (str "Status")
      ∧ m !! key "Essentials"
        = Some (TSection {[ str "Status" := String (str "Launched") ]}).
Proof.
  split; [by right; left|]. split; [decide_by_compute|].
  split; [decide_by_compute|].
  do 2 eexists. split; [by_compute|]. split; [|by_compute].
  eexists. split; by_compute.
Qed.

(** C7, on a page whose "CoreCount" is "eight". *)
Lemma converter_failure_witness :
  parse_specs page_bad_count
  = ([], Raise (ValueError (str "FAILED: CoreCount: eight"))).
Proof.
  set (section := div "Essentials" [ row "CoreCount" "eight" ]).
  set (st0 := (initial_specs (Conv := list (list N)) page_bad_count
                 (str "Core i7") 29765,
               (∅ : gmap (option (list N)) (gmap (list N) (list N))))).
  assert (reaches page_bad_count section (row "CoreCount" "eight")
            (init_header (key "Essentials") st0)) as Hreach.
  { exists (str "/content/www/us/en/ark/products/29765/q6600.html"),
      (str "29765"), 29765%Z, (str "Intel Core i7"), [], [], st0, [], [].
    repeat split; try by_compute. intros Hd. vm_compute in Hd. discriminate. }
  destruct (converter_failure page_bad_count section
              (row "CoreCount" "eight") _ (str "CoreCount") (str "eight")
              conv_int
              (str "invalid literal for int() with base 10: 'eight'")
              Hreach) as [H _];
    [decide_by_compute|reflexivity|reflexivity|decide_by_compute
    |decide_by_compute|by vm_compute|by vm_compute|by vm_compute
    |by_compute|by_compute|].
  exact H.
Defined.

(** C8, on a listing page whose breadcrumb reads "Memory and Storage": no
    request for its product link is yielded. *)
Lemma series_breadcrumb_guard_witness :
  hidden_crumb page_memory_series = Some (str " Memory and Storage ")
  ∧ strip (str " Memory and Storage ") ≠ str "Processors"
  ∧ parse_series page_memory_series
    = ([], Raise (CloseSpider (str "Processors not found in crumb"))).
Proof.
  assert (strip (str " Memory and Storage ") ≠ str "Processors") as Hne
    by (by vm_compute).
  split; [reflexivity|]. split; [exact Hne|].
  destruct (series_breadcrumb_guard page_memory_series) as [H _].
  exact (H _ eq_refl Hne).
Defined.

(** C8, counterexample.  A listing page without the breadcrumb node: its
    breadcrumb does not read "Processors", and [parse_series] raises
    [AttributeError], not [CloseSpider]. *)
Lemma series_breadcrumb_guard_counterexample :
  hidden_crumb page_series_no_crumb = None
  ∧ parse_series page_series_no_crumb = ([], Raise AttributeError)
  ∧ (forall reason,
        (parse_series page_series_no_crumb).2 ≠ Raise (CloseSpider reason)).
Proof. split; [reflexivity|]. split; [by_compute|]. by intros reason. Qed.

(** * Further properties of the code *)

(** ** Splitting and joining *)

Section SplitJoin.

Implicit Types (s sep cur : list N).

Lemma split_go_nonempty sep n cur s : split_go sep n cur s ≠ [].
Proof.
  revert n cur. induction s as [|c s IH]; intros n cur; [done|].
  cbn [split_go]. destruct n; [|apply IH].
  destruct (startswith sep (c :: s)); [done|apply IH].
Qed.

Lemma join_cons sep w ws :
  ws ≠ [] -> join sep (w :: ws) = w ++ sep ++ join sep ws.
Proof. by destruct ws. Qed.

Lemma startswith_app sep s :
  startswith sep s = true -> s = sep ++ drop (length sep) s.
Proof.
  revert s. induction sep as [|a sep IH]; intros s; [done|].
  destruct s as [|b s]; [done|]. cbn [startswith].
  intros [->%N.eqb_eq Hs]%andb_true_iff. cbn. f_equal. by apply IH.
Qed.

Lemma join_split_go sep n cur s :
  sep ≠ [] -> join sep (split_go sep n cur s) = cur ++ drop n s.
Proof.
  intros Hsep. revert n cur.
  induction s as [|c s IH]; intros n cur.
  - cbn [split_go join]. by rewrite drop_nil, app_nil_r.
  - cbn [split_go]. destruct n as [|n]; [|by rewrite IH].
    destruct (startswith sep (c :: s)) eqn:E.
    + rewrite join_cons by apply split_go_nonempty. rewrite IH.
      pose proof (startswith_app _ _ E) as Hs.
      destruct sep as [|a sep]; [done|]. cbn in Hs |- *.
      injection Hs as -> Hs. rewrite Nat.sub_0_r. by rewrite <- Hs.
    + rewrite IH. cbn. by rewrite <- app_assoc.
Qed.

(** [sep.join(s.split(sep)) == s] *)
Lemma join_split s sep : sep ≠ [] -> join sep (split s sep) = s.
Proof. intros. unfold split. by rewrite join_split_go. Qed.

Lemma split_nonempty s sep : split s sep ≠ [].
Proof. apply split_go_nonempty. Qed.

End SplitJoin.

(** ** What the product records hold *)

Section Records.

Context {Conv : Type} `{!Collaborators Conv}.

Local Abbreviation specs_t := (gmap (option (list N)) (TopValue Conv)).
Local Abbreviation legends_t := (gmap (option (list N)) (gmap (list N) (list N))).

(** Something is yielded only once the dictionaries are collected. *)
Lemma parse_specs_item response (item : Item Conv) :
  item ∈ (parse_specs response).1 ->
  exists specs legends,
    collect response = Ok (specs, legends)
    ∧ item ∈ (emit specs legends).1.
Proof.
  destruct (collect response) as [[specs legends]|e] eqn:Hc.
  - rewrite (parse_specs_Ok _ _ _ Hc). cbn [fst]. eauto.
  - rewrite (parse_specs_Raise _ _ Hc). by intros ?%elem_of_nil.
Qed.

(** Which text gives which stored value. *)
Lemma typed_value_Ok k v (x : SpecValue Conv) :
  typed_value k v = Ok x ->
  match x with
  | Boolean true => v = str "Yes"
  | Boolean false => v = str "No"
  | Null => v = []
  | String s =>
      s = v ∧ v ≠ str "Yes" ∧ v ≠ str "No" ∧ v ≠ []
      ∧ convertTo !! k = None
  | Number _ => convertTo !! k = Some conv_int
  | Converted _ => exists c, convertTo !! k = Some c ∧ c ≠ conv_int
  end.
Proof.
  unfold typed_value.
  destruct (decide (v = str "Yes")); [by intros [= <-]|].
  destruct (decide (v = str "No")); [by intros [= <-]|].
  destruct (decide (v = [])); [by intros [= <-]|].
  destruct (convertTo !! k) as [c|]; [|by intros [= <-]].
  destruct c; cbn.
  - destruct (py_int v) as [z|[]]; cbn; by intros [= <-].
  - destruct (speedToHz v) as [z|[]]; cbn; intros [= <-]; by eexists.
  - destruct (sizeToBytes v) as [z|[]]; cbn; intros [= <-]; by eexists.
  - destruct (toList v) as [z|[]]; cbn; intros [= <-]; by eexists.
  - destruct (toPackage v) as [z|[]]; cbn; intros [= <-]; by eexists.
  - destruct (toTDP v) as [z|[]]; cbn; intros [= <-]; by eexists.
Qed.

(** X1.  Every value in a section of a product record was stored by a row
    of the page under that header and key, and its kind tells the row's
    cleaned text: [true] only for "Yes", [false] only for "No", [None]
    only for the empty text; a string is the cleaned text itself, which is
    then not empty, not "Yes" or "No", not a placeholder of [skipIfValue],
    made of words joined by single spaces, and its key has no converter; a
    number or a converted value only under a key of [convertTo]. *)
Theorem stored_value_origin
    (response : Response) (item : Item Conv) (m : specs_t)
    (h : option (list N)) (d : gmap (list N) (SpecValue Conv))
    (k : list N) (x : SpecValue Conv) :
  item ∈ (parse_specs response).1 ->
  product_record item = Some m ->
  m !! h = Some (TSection d) ->
  d !! k = Some x ->
  exists data v,
    row_of (spec_divs response) h k data
    ∧ value_text data = Some v
    ∧ match x with
      | Boolean true => v = str "Yes"
      | Boolean false => v = str "No"
      | Null => v = []
      | String s =>
          s = v ∧ v ≠ [] ∧ v ≠ str "Yes" ∧ v ≠ str "No"
          ∧ (v ∉ skipIfValue) ∧ convertTo !! k = None
          ∧ (exists ws, Forall word ws ∧ v = join (str " ") ws)
      | Number _ | Converted _ => is_Some (convertTo !! k)
      end.
Proof.
  intros (specs & legends & Hc & Hin)%parse_specs_item Hm Hd Hx.
  destruct (emit_record_section _ _ _ _ _ _ _ _ Hin Hm Hd Hx)
    as (d0 & Hd0 & Hx0).
  destruct (collect_facts _ _ _ Hc) as (_ & _ & [Ts _] & _).
  destruct (Ts _ _ _ _ Hd0 Hx0) as (_ & data & v & Hrow & Hv & Hskip & Ht).
  exists data, v. split; [done|]. split; [done|].
  apply typed_value_Ok in Ht. destruct x as [[]| |s|z|c]; try done.
  - destruct Ht as (-> & ? & ? & ? & ?). repeat (split; [done|]).
    unfold value_text in Hv. destruct (tech_data data); [|done].
    cbn in Hv. injection Hv as <-. apply cleantxt_words.
  - destruct Ht as (c' & -> & _). eauto.
Qed.

(** X2.  Every key of every section of a product record has its entry in
    the legend record of the page, under the same header, and the entry
    is the cleaned key. *)
Theorem record_keys_have_legends
    (response : Response) (specs : specs_t) (legends : legends_t)
    (item : Item Conv) (m : specs_t)
    (h : option (list N)) (d : gmap (list N) (SpecValue Conv))
    (k : list N) :
  collect response = Ok (specs, legends) ->
  item ∈ (parse_specs response).1 ->
  product_record item = Some m ->
  m !! h = Some (TSection d) ->
  is_Some (d !! k) ->
  CPULegendItem legends ∈ (parse_specs response).1
  ∧ legend_has legends h k.
Proof.
  intros Hc Hin Hm Hd [x Hx].
  rewrite (parse_specs_Ok _ _ _ Hc) in Hin |- *. cbn [fst] in Hin |- *.
  split.
  { destruct (emit_shape specs legends) as (rest & -> & _). by left. }
  destruct (emit_record_section _ _ _ _ _ _ _ _ Hin Hm Hd Hx)
    as (d0 & Hd0 & Hx0).
  destruct (collect_facts _ _ _ Hc) as (_ & _ & [Ts _] & Hleg).
  destruct (Ts _ _ _ _ Hd0 Hx0)
    as (Hskip & data & _ & (section & raw_k & ? & ? & <- & ? & ? & <-) & _).
  by eapply Hleg.
Qed.

(** X3.  Every product record carries the page's URL under "URL" and the
    cleaned text of the current-page breadcrumb under "name": no block of
    the page can overwrite them. *)
Theorem identity_fields
    (response : Response) (item : Item Conv) (m : specs_t) :
  item ∈ (parse_specs response).1 ->
  product_record item = Some m ->
  m !! key "URL" = Some (TField (String (url response)))
  ∧ exists t,
      current_page response = Some t
      ∧ m !! key "name" = Some (TField (String (cleantxt t))).
Proof.
  intros (specs & legends & Hc & Hin)%parse_specs_item Hm.
  rewrite !(emit_record_lookup _ _ _ _ _ Hin Hm) by key_neq.
  apply collect_facts in Hc as ((path & seg & z & t & _ & _ & _ & Ht & F) & _).
  split.
  - apply F. unfold initial_specs. apply lookup_insert_eq.
  - exists t. split; [done|]. apply F. unfold initial_specs.
    rewrite lookup_insert_ne by key_neq. apply lookup_insert_eq.
Qed.

End Records.

(** ** What [parse_specs] yields, and how it ends *)

Section Outcomes.

Context {Conv : Type} `{!Collaborators Conv}.

Local Abbreviation specs_t := (gmap (option (list N)) (TopValue Conv)).
Local Abbreviation legends_t := (gmap (option (list N)) (gmap (list N) (list N))).

(** X4.  [parse_specs] ends in one of six ways.  If collecting the
    dictionaries raises, nothing is yielded.  Otherwise the legend record
    comes first and is followed by: nothing and a [KeyError] for "Package
    Specifications" or for "Essentials"; nothing and an [AttributeError];
    one unknown-socket record; or one [CPUSpecsItem] for each of at least
    one socket.  In particular no other exception leaves the second part,
    and no page gives a legend record followed by zero records and a
    normal end. *)
Theorem parse_specs_outcomes (response : Response) :
  match collect response with
  | Raise e => parse_specs response = ([], Raise e)
  | Ok (specs, legends) =>
      parse_specs response
      = ([CPULegendItem legends],
         Raise (KeyError (key "Package Specifications")))
      ∨ parse_specs response
        = ([CPULegendItem legends], Raise (KeyError (key "Essentials")))
      ∨ parse_specs response
        = ([CPULegendItem legends], Raise AttributeError)
      ∨ (exists m,
            parse_specs response
            = ([CPULegendItem legends; CPUSpecsUnknownItem m], Ok tt))
      ∨ (exists base sockets,
            sockets ≠ []
            ∧ parse_specs response
              = (CPULegendItem legends :: (socket_record base <$> sockets),
                 Ok tt))
  end.
Proof.
  destruct (collect response) as [[specs legends]|e] eqn:Hc;
    [|by apply parse_specs_Raise].
  rewrite (parse_specs_Ok _ _ _ Hc).
  destruct (collect_header _ _ _ (key "Package Specifications") Hc)
    as [Hp1 Hp0]; [key_notin|].
  destruct (collect_header _ _ _ (key "Essentials") Hc)
    as [He1 He0]; [key_notin|].
  destruct (decide (key "Package Specifications"
                      ∈ headers_of (spec_divs response))) as [Hp|Hp].
  2: { left. by rewrite (emit_no_package _ _ (Hp0 Hp)). }
  destruct (Hp1 Hp) as [ps Hps].
  destruct (decide (key "Essentials" ∈ headers_of (spec_divs response)))
    as [He|He].
  2: { right. left. by rewrite (emit_no_essentials _ _ _ Hps (He0 He)). }
  destruct (He1 He) as [es Hes].
  rewrite (emit_sections _ _ _ _ Hps Hes).
  destruct (ps !! str "Sockets Supported") as [[| |v| |]|].
  - do 2 right. by left.
  - do 2 right. by left.
  - do 4 right. eexists _, (split v (str ", ")).
    split; [apply split_nonempty|done].
  - do 2 right. by left.
  - do 2 right. by left.
  - do 3 right. left. by eexists.
Qed.

Lemma socket_fields_records (legends : legends_t) (base : specs_t) sockets :
  socket_fields (CPULegendItem legends :: (socket_record base <$> sockets))
  = (fun s => TField (String s)) <$> sockets.
Proof.
  unfold socket_fields. cbn [omap list_omap product_record mbind option_bind].
  induction sockets as [|socket rest IH]; [done|].
  cbn [fmap list_fmap omap list_omap socket_record product_record
         mbind option_bind].
  rewrite lookup_insert_eq. by rewrite <- IH.
Qed.

(** X5.  On a page with an "Essentials" block, when "Sockets Supported"
    holds a string, the [socket] entries of the records yielded, in order
    and joined by ", ", give that string back, and there is at least one
    record: no socket name is lost, added or reordered. *)
Theorem socket_round_trip
    (response : Response) (specs : specs_t) (legends : legends_t)
    (ps : gmap (list N) (SpecValue Conv)) (v : list N) :
  collect response = Ok (specs, legends) ->
  specs !! key "Package Specifications" = Some (TSection ps) ->
  key "Essentials" ∈ headers_of (spec_divs response) ->
  ps !! str "Sockets Supported" = Some (String v) ->
  exists sockets,
    sockets ≠ []
    ∧ join (str ", ") sockets = v
    ∧ socket_fields (parse_specs response).1
      = (fun s => TField (String s)) <$> sockets.
Proof.
  intros Hc Hp Hess Hs. rewrite (parse_specs_Ok _ _ _ Hc).
  destruct (collect_header _ _ _ (key "Essentials") Hc) as [He1 _];
    [key_notin|].
  destruct (He1 Hess) as [es He].
  rewrite (emit_sections _ _ _ _ Hp He), Hs.
  exists (split v (str ", ")). split; [apply split_nonempty|].
  split; [by apply join_split|]. cbn [fst]. apply socket_fields_records.
Qed.

(** X6.  The value that the collected "Package Specifications" section
    holds under "Sockets Supported" is a string that is not empty, a
    boolean or [None], never a number or a converted value.  When it is a
    boolean or [None] and the page has an "Essentials" block,
    [parse_specs] yields the legend record alone and raises
    [AttributeError]. *)
Theorem sockets_not_text
    (response : Response) (specs : specs_t) (legends : legends_t)
    (ps : gmap (list N) (SpecValue Conv)) (x : SpecValue Conv) :
  collect response = Ok (specs, legends) ->
  specs !! key "Package Specifications" = Some (TSection ps) ->
  ps !! str "Sockets Supported" = Some x ->
  match x with
  | String v => v ≠ []
  | Boolean _ | Null =>
      key "Essentials" ∈ headers_of (spec_divs response) ->
      parse_specs response = ([CPULegendItem legends], Raise AttributeError)
  | Number _ | Converted _ => False
  end.
Proof.
  intros Hc Hp Hs.
  destruct (collect_facts _ _ _ Hc) as (_ & _ & [Ts _] & _).
  destruct (Ts _ _ _ _ Hp Hs) as (_ & data & v & _ & _ & _ & Ht).
  apply typed_value_Ok in Ht.
  assert (key "Essentials" ∈ headers_of (spec_divs response) ->
          match x with
          | Boolean _ | Null =>
              parse_specs response
              = ([CPULegendItem legends], Raise AttributeError)
          | _ => True
          end) as Hraise.
  { intros Hess. rewrite (parse_specs_Ok _ _ _ Hc).
    destruct (collect_header _ _ _ (key "Essentials") Hc) as [He1 _];
      [key_notin|].
    destruct (He1 Hess) as [es He].
    rewrite (emit_sections _ _ _ _ Hp He), Hs. by destruct x. }
  destruct x as [b| |s|z|c]; [done|done|..].
  - by destruct Ht as (-> & _ & _ & ? & _).
  - by vm_compute in Ht.
  - destruct Ht as (c' & Ht & _). by vm_compute in Ht.
Qed.

End Outcomes.

(** ** Blocks and rows that can be dropped, merged or replaced *)

Section Blocks.

Context {Conv : Type} `{!Collaborators Conv}.

Local Abbreviation specs_t := (gmap (option (list N)) (TopValue Conv)).
Local Abbreviation legends_t := (gmap (option (list N)) (gmap (list N) (list N))).

Implicit Types (st : specs_t * legends_t).

(** [parse_specs] reads the blocks of a page only through [collect]. *)
Lemma parse_specs_with_divs response sections :
  (forall st,
      for_each process_section st sections
      = for_each process_section st (spec_divs response)) ->
  parse_specs (with_divs response sections) = parse_specs response.
Proof.
  intros Heq. unfold parse_specs, collect.
  cbn [url current_page spec_divs with_divs].
  destruct (urlsplit_path (url response)); [cbn|done].
  destruct (split _ _ !! 6%nat); [cbn|done].
  destruct (py_int _); [cbn|done].
  destruct (current_page response); [cbn|done].
  by rewrite Heq.
Qed.

Lemma for_each_skip_downloads st sections :
  for_each process_section st (filter (fun d => ¬ is_download d) sections)
  = for_each process_section st sections.
Proof.
  revert st. induction sections as [|section sections IH]; intros st; [done|].
  rewrite filter_cons.
  destruct (decide (¬ is_download section)) as [Hd|Hd]; cbn [for_each].
  - destruct (process_section st section); [cbn; apply IH|done].
  - assert (process_section st section = Ok st) as ->.
    { unfold process_section.
      by destruct (decide (is_download section)). }
    cbn. apply IH.
Qed.

(** X7.  Blocks that carry the "Download Specifications" link do not
    count: with them removed from the page, [parse_specs] yields the same
    items and ends the same way, whatever their header and rows are. *)
Theorem download_blocks_ignored (response : Response) :
  parse_specs
    (with_divs response
       (filter (fun d => ¬ is_download d) (spec_divs response)))
  = parse_specs response.
Proof.
  apply parse_specs_with_divs. intros st. apply for_each_skip_downloads.
Qed.

Lemma init_header_has header st :
  is_Some ((init_header header st).1 !! header).
Proof.
  unfold init_header. destruct (st.1 !! header) eqn:E; cbn.
  - by rewrite E.
  - by rewrite lookup_insert_eq.
Qed.

Lemma init_header_id header st :
  is_Some (st.1 !! header) -> init_header header st = st.
Proof. intros [x Hx]. unfold init_header. by rewrite Hx. Qed.

Lemma process_section_merged st s1 s2 :
  ¬ is_download s1 -> ¬ is_download s2 -> heading s2 = heading s1 ->
  process_section st (merged s1 s2)
  = st1 ← process_section st s1; process_section st1 s2.
Proof.
  intros Hd1 Hd2 Hh. unfold process_section.
  rewrite !decide_False by done. cbn [heading tech_rows merged].
  rewrite for_each_app, Hh.
  destruct (for_each _ _ (tech_rows s1)) as [st1|] eqn:E; [cbn|done].
  rewrite decide_False by done.
  rewrite init_header_id; [done|].
  apply rows_grow in E as (_ & -> & _). apply init_header_has.
Qed.

(** X8.  Two blocks with the same header, one right after the other, are
    read as one block holding the rows of the first and then those of
    the second: merging them changes neither the items nor the way
    [parse_specs] ends. *)
Theorem adjacent_blocks_merge
    (response : Response) (pre post : list SpecDiv) (s1 s2 : SpecDiv) :
  spec_divs response = pre ++ s1 :: s2 :: post ->
  ¬ is_download s1 -> ¬ is_download s2 ->
  heading s2 = heading s1 ->
  parse_specs (with_divs response (pre ++ merged s1 s2 :: post))
  = parse_specs response.
Proof.
  intros Hdivs Hd1 Hd2 Hh. apply parse_specs_with_divs.
  intros st. rewrite Hdivs, !for_each_app.
  destruct (for_each process_section st pre) as [st0|]; [cbn|done].
  rewrite (process_section_merged _ _ _ Hd1 Hd2 Hh).
  by destruct (process_section st0 s1).
Qed.

(** X9.  Within a block, a row replaces an earlier row with the same key:
    if [r1] is processed without error and [r2] has the same stripped
    key and a value that is not a placeholder of [skipIfValue], then
    processing [r2] after [r1] gives what processing [r2] alone gives,
    the same dictionaries or the same exception. *)
Theorem later_row_replaces
    (header : option (list N)) (st st1 : specs_t * legends_t)
    (r1 r2 : Row) (k1 k2 : list N) :
  process_row header st r1 = Ok st1 ->
  tech_label r1 = Some k1 -> tech_label r2 = Some k2 ->
  strip k1 = strip k2 ->
  (forall v, value_text r2 = Some v -> v ∉ skipIfValue) ->
  process_row header st1 r2 = process_row header st r2.
Proof.
  destruct st as [specs legends], st1 as [specs1 legends1].
  intros H1%process_row_Ok Hk1 Hk2 Hk Hv2.
  destruct H1 as [raw_k Hk' Hskip|raw_k lg raw_v Hk' Hskip Hlg Hv Hskipv
                 |raw_k lg raw_v x d Hk' Hskip Hlg Hv Hskipv Hx Hd];
    [done|..]; rewrite Hk1 in Hk'; injection Hk' as <-;
    unfold process_row; rewrite Hk2, <- Hk;
    rewrite !bool_decide_eq_false_2 by done;
    rewrite lookup_insert_eq, Hlg; cbv zeta; rewrite !insert_insert_eq.
  - done.
  - destruct (tech_data r2) as [raw_v2|] eqn:E2; [|done].
    rewrite bool_decide_eq_false_2
      by (apply Hv2; unfold value_text; by rewrite E2).
    unfold get_section. rewrite lookup_insert_eq, Hd.
    destruct (typed_value (strip k1) (cleantxt (strip raw_v2))) as [x2|];
      [cbn|done].
    by rewrite !insert_insert_eq.
Qed.

End Blocks.

(** ** Exceptions raised at a row *)

Section RowErrors.

Context {Conv : Type} `{!Collaborators Conv}.

Local Abbreviation specs_t := (gmap (option (list N)) (TopValue Conv)).
Local Abbreviation legends_t := (gmap (option (list N)) (gmap (list N) (list N))).

Implicit Types (st : specs_t * legends_t).

Lemma rows_keep_initial_keys header st rows st' :
  initial_keys_kept st ->
  for_each (process_row header) st rows = Ok st' ->
  initial_keys_kept st'.
Proof.
  intros Q (_ & Ds & Dl)%rows_grow h Hh. destruct (Q h Hh) as [Hs Hl].
  split; [by apply Ds|].
  apply eq_None_not_Some. rewrite Dl, Hl. by intros [? ?].
Qed.

Lemma init_header_keeps_initial_keys header st :
  initial_keys_kept st -> initial_keys_kept (init_header header st).
Proof.
  intros Q h Hh. destruct (Q h Hh) as [Hs Hl]. unfold init_header.
  destruct (st.1 !! header) eqn:E; [done|]. cbn.
  assert (h ≠ header) by (intros ->; rewrite E in Hs; by destruct Hs).
  by rewrite !lookup_insert_ne.
Qed.

Lemma reaches_initial_keys response section data st :
  reaches response section data st -> initial_keys_kept st.
Proof.
  intros (path & seg & z & t & pre & post & st1 & rows_pre & rows_post
          & _ & _ & _ & _ & _ & Hpre & _ & _ & Hst).
  eapply rows_keep_initial_keys; [|done].
  apply init_header_keeps_initial_keys.
  revert Hpre. apply (for_each_invariant _ initial_keys_kept).
  - intros st0 s st0' _ Q [[_ ->]|[_ Hrows]]%process_section_Ok; [done|].
    eapply rows_keep_initial_keys; [|done].
    by apply init_header_keeps_initial_keys.
  - intros h Hh. cbn. split; [by apply initial_specs_lookup|].
    apply lookup_empty.
Qed.

(** X10.  An exception of a converter that is not a [ValueError] is not
    caught: it leaves [parse_specs] as it is, without the key and the
    value, and nothing has been yielded. *)
Theorem converter_exception_propagates
    (response : Response) (section : SpecDiv) (data : Row)
    (st : specs_t * legends_t) (raw_k raw_v : list N)
    (c : converter) (e : exn) :
  reaches response section data st ->
  heading section ∉ initial_keys ->
  tech_label data = Some raw_k ->
  tech_data data = Some raw_v ->
  let k := strip raw_k in
  let v := cleantxt (strip raw_v) in
  k ∉ skipIfKey -> v ∉ skipIfValue ->
  v ≠ str "Yes" -> v ≠ str "No" -> v ≠ [] ->
  convertTo !! k = Some c ->
  call_converter c v = Raise e ->
  (forall msg, e ≠ ValueError msg) ->
  parse_specs response = ([], Raise e).
Proof.
  intros Hreach Hh Hk Hv k v Hskip Hskipv N1 N2 N3 Hc Hfail Hne.
  apply parse_specs_Raise. eapply reaches_raise; [done|].
  destruct (reaches_legend _ _ _ _ Hreach Hh) as [lg Hlg].
  destruct st as [specs legends]. cbn in Hlg.
  unfold process_row. rewrite Hk, Hv, Hlg.
  rewrite !bool_decide_eq_false_2 by done.
  fold k v. unfold typed_value.
  rewrite !decide_False, Hc, Hfail by done.
  destruct e; try done. by destruct (Hne msg).
Qed.

(** X11.  A row without its label node makes [parse_specs] raise
    [AttributeError]; a row whose key is not skipped and that has no
    value node makes it raise [TypeError] (under a header other than the
    three initial keys).  In both cases nothing has been yielded. *)
Theorem missing_row_nodes
    (response : Response) (section : SpecDiv) (data : Row)
    (st : specs_t * legends_t) :
  reaches response section data st ->
  (tech_label data = None ->
     parse_specs response = ([], Raise AttributeError))
  ∧ (forall raw_k,
        tech_label data = Some raw_k -> strip raw_k ∉ skipIfKey ->
        heading section ∉ initial_keys ->
        tech_data data = None ->
        parse_specs response = ([], Raise TypeError)).
Proof.
  intros Hreach. split.
  - intros Hk. apply parse_specs_Raise. eapply reaches_raise; [done|].
    destruct st. unfold process_row. by rewrite Hk.
  - intros raw_k Hk Hskip Hh Hv.
    apply parse_specs_Raise. eapply reaches_raise; [done|].
    destruct (reaches_legend _ _ _ _ Hreach Hh) as [lg Hlg].
    destruct st as [specs legends]. cbn in Hlg.
    unfold process_row. rewrite Hk, Hv, Hlg.
    by rewrite bool_decide_eq_false_2.
Qed.

(** X12.  A block headed "URL", "name" or "arkid" has no legend group: its
    first row with a key that is not skipped makes [parse_specs] raise
    [KeyError] for the header, before anything is yielded. *)
Theorem header_collision
    (response : Response) (section : SpecDiv) (data : Row)
    (st : specs_t * legends_t) (raw_k : list N) :
  reaches response section data st ->
  heading section ∈ initial_keys ->
  tech_label data = Some raw_k ->
  strip raw_k ∉ skipIfKey ->
  parse_specs response = ([], Raise (KeyError (heading section))).
Proof.
  intros Hreach Hh Hk Hskip.
  apply parse_specs_Raise. eapply reaches_raise; [done|].
  destruct (reaches_initial_keys _ _ _ _ Hreach _ Hh) as [_ Hl].
  destruct st as [specs legends]. cbn in Hl.
  unfold process_row. rewrite Hk, Hl.
  by rewrite bool_decide_eq_false_2.
Qed.

End RowErrors.

(** ** The keys of the records *)

Section RecordKeys.

Context {Conv : Type} `{!Collaborators Conv}.

Local Abbreviation specs_t := (gmap (option (list N)) (TopValue Conv)).
Local Abbreviation legends_t := (gmap (option (list N)) (gmap (list N) (list N))).

Lemma hoisted_is_Some (specs : specs_t) es h :
  is_Some (hoisted specs es !! h)
  <-> is_Some (specs !! h)
      ∨ (h = key "id" ∧ is_Some (es !! str "Processor Number"))
      ∨ (h = key "Essentials" ∧ is_Some (es !! str "Processor Number")).
Proof.
  unfold hoisted. destruct (es !! str "Processor Number") as [v|].
  - destruct (decide (h = key "Essentials")) as [->|];
      [rewrite lookup_insert_eq; split; eauto|].
    rewrite lookup_insert_ne by done.
    destruct (decide (h = key "id")) as [->|];
      [rewrite lookup_insert_eq; split; eauto|].
    rewrite lookup_insert_ne by done.
    split; [by left|]. by intros [?|[[? _]|[? _]]].
  - split; [by left|]. by intros [?|[[_ [? ?]]|[_ [? ?]]]].
Qed.

(** X13.  Every block of the page that is not skipped is a key of every
    product record, also a block without rows or with skipped rows only;
    under a header other than "URL", "name", "arkid", "id" and "socket"
    the record holds a section.  The record has no other keys than the
    three initial ones, the headers, "id" and "socket". *)
Theorem record_keys
    (response : Response) (item : Item Conv) (m : specs_t) :
  item ∈ (parse_specs response).1 ->
  product_record item = Some m ->
  (forall h, h ∈ headers_of (spec_divs response) -> is_Some (m !! h))
  ∧ (forall h,
        h ∈ headers_of (spec_divs response) ->
        h ∉ initial_keys ++ [key "id"; key "socket"] ->
        exists d, m !! h = Some (TSection d))
  ∧ (forall h,
        is_Some (m !! h) ->
        h ∈ initial_keys ∨ h ∈ headers_of (spec_divs response)
        ∨ h = key "id" ∨ h = key "socket").
Proof.
  intros (specs & legends & Hc & Hin)%parse_specs_item Hm.
  destruct (collect_facts _ _ _ Hc) as (_ & D & _).
  assert (forall h, is_Some (m !! h)
            <-> is_Some (hoisted specs
                           (default ∅ (specs !! key "Essentials"
                              ≫= fun x => match x with
                                          | TSection es => Some es
                                          | TField _ => None
                                          end)) !! h)
                ∨ (h = key "socket" ∧ item = CPUSpecsItem m)) as Hm'.
  { intros h.
    destruct (emit_records _ _ _ _ Hin Hm)
      as (ps & es & Hp & He & [(_ & -> & ->)|(v & socket & _ & _ & -> & ->)]);
      rewrite He; cbn.
    - split; [by left|]. by intros [?|[_ [=]]].
    - destruct (decide (h = key "socket")) as [->|];
        [rewrite lookup_insert_eq; split; eauto|].
      rewrite lookup_insert_ne by done.
      destruct (decide (h = key "Package Specifications")) as [->|].
      + rewrite lookup_insert_eq, hoisted_lookup_ne, Hp by key_neq.
        split; eauto.
      + rewrite lookup_insert_ne by done. split; [by left|].
        by intros [?|[? _]]. }
  split; [|split].
  - intros h Hh. apply Hm'. left. apply hoisted_is_Some. left.
    apply D. by right.
  - intros h Hh Hn.
    rewrite !not_elem_of_app, !not_elem_of_cons in Hn.
    destruct Hn as (Hi & Hid & Hsock & _).
    destruct (collect_header _ _ _ h Hc Hi) as [H1 _].
    destruct (H1 Hh) as [d Hd].
    destruct (emit_records _ _ _ _ Hin Hm)
      as (ps & es & Hp & He & [(_ & _ & ->)|(v & socket & _ & _ & _ & ->)]).
    + destruct (decide (h = key "Essentials")) as [->|].
      * unfold hoisted. destruct (es !! str "Processor Number");
          [rewrite lookup_insert_eq|]; eauto.
      * rewrite hoisted_lookup_ne by done. eauto.
    + rewrite lookup_insert_ne by done.
      destruct (decide (h = key "Package Specifications")) as [->|];
        [rewrite lookup_insert_eq; eauto|rewrite lookup_insert_ne by done].
      destruct (decide (h = key "Essentials")) as [->|].
      * unfold hoisted. destruct (es !! str "Processor Number");
          [rewrite lookup_insert_eq|]; eauto.
      * rewrite hoisted_lookup_ne by done. eauto.
  - intros h [Hh|[-> _]]%Hm'; [|by do 3 right].
    apply hoisted_is_Some in Hh as [Hh|[[-> _]|[-> [x Hx]]]].
    + apply D in Hh as [?|?]; [by left|right; by left].
    + do 2 right. by left.
    + right. left.
      destruct (emit_records _ _ _ _ Hin Hm) as (ps & es & _ & He & _).
      destruct (collect_header _ _ _ (key "Essentials") Hc) as [_ H0];
        [key_notin|].
      destruct (decide (key "Essentials" ∈ headers_of (spec_divs response)))
        as [|Hout]; [done|].
      rewrite (H0 Hout) in He. done.
Qed.

End RecordKeys.

(** ** The requests of the spiders *)

Section Requests.

Context {Conv : Type} `{!Collaborators Conv}.

Implicit Types (links : list (list N)) (j : list N -> list N).

(** The request [parse_series] makes for a link joined to [target]. *)
Local Abbreviation to_specs target :=
  {| req_url := target; req_callback := cb_parse_specs |}.

(** The request [CpuSpecListSpider.parse] makes. *)
Local Abbreviation to_series target :=
  {| req_url := target; req_callback := cb_parse_series |}.

Lemma glift_Ok_bind {Y A B} (a : A) (k : A -> gen Y B) :
  glift (Ok a) ≫= k = k a.
Proof. unfold mbind, gen_bind, glift. by destruct (k a). Qed.

Lemma product_links_cons link links :
  product_links (link :: links)
  = if decide (find link (str "/products/") = (-1)%Z)
    then product_links links else link :: product_links links.
Proof.
  unfold product_links. rewrite filter_cons.
  destruct (decide (find link (str "/products/") = (-1)%Z)) as [E|E];
    rewrite find_absent in E.
  - rewrite decide_False; [done|]. by rewrite E.
  - rewrite decide_True; [done|]. by apply not_false_is_true.
Qed.

Lemma follow_links_Ok (base : Response) links j :
  (forall link, link ∈ product_links links ->
                urljoin (url base) link = Ok (j link)) ->
  follow_links base links
  = ((fun link => to_specs (j link)) <$> product_links links, Ok tt).
Proof.
  induction links as [|link links IH]; intros Hj; [done|].
  cbn [follow_links]. rewrite product_links_cons in Hj |- *.
  destruct (decide (find link (str "/products/") = (-1)%Z)); [by apply IH|].
  rewrite (Hj link) by by left.
  rewrite IH by (intros; apply Hj; by right). done.
Qed.

Lemma follow_links_Raise (base : Response) l1 link l2 j e :
  (forall l, l ∈ product_links l1 -> urljoin (url base) l = Ok (j l)) ->
  contains (str "/products/") link = true ->
  urljoin (url base) link = Raise e ->
  follow_links base (l1 ++ link :: l2)
  = ((fun l => to_specs (j l)) <$> product_links l1, Raise e).
Proof.
  intros Hj Hp He. induction l1 as [|l l1 IH]; cbn [app follow_links].
  - rewrite decide_False by (rewrite find_absent; congruence).
    by rewrite He.
  - rewrite product_links_cons in Hj |- *.
    destruct (decide (find l (str "/products/") = (-1)%Z)); [by apply IH|].
    rewrite (Hj l) by by left.
    rewrite IH by (intros; apply Hj; by right). done.
Qed.

Lemma follow_links_requests (base : Response) links req :
  req ∈ (follow_links base links).1 ->
  req_callback req = cb_parse_specs
  ∧ exists link, link ∈ links
                 ∧ contains (str "/products/") link = true
                 ∧ urljoin (url base) link = Ok (req_url req).
Proof.
  induction links as [|link links IH]; cbn [follow_links].
  { by intros ?%elem_of_nil. }
  destruct (decide (find link (str "/products/") = (-1)%Z)) as [E|E].
  { intros (? & l & ? & ?)%IH. split; [done|]. exists l. by split; [right|]. }
  rewrite find_absent in E. apply not_false_is_true in E.
  destruct (urljoin (url base) link) as [target|e] eqn:Hu;
    [|by intros ?%elem_of_nil].
  cbn. destruct (follow_links base links) as [ys r] eqn:F. cbn in IH |- *.
  intros [->|Hin]%elem_of_cons.
  - split; [done|]. exists link. by split; [left|].
  - destruct (IH Hin) as (? & l & ? & ?). split; [done|].
    exists l. by split; [right|].
Qed.

(** X14.  On a listing page whose breadcrumb, stripped, reads "Processors",
    [parse_series] requests the links that contain "/products/", each
    joined to the URL of the page, in the order of the page and with
    duplicates kept, for [parse_specs]; the links without "/products/" are
    passed over, and the generator returns. *)
Theorem series_requests
    (response : Response) (crumb : list N) (j : list N -> list N) :
  hidden_crumb response = Some crumb ->
  strip crumb = str "Processors" ->
  (forall link, link ∈ product_links (row_links response) ->
                urljoin (url response) link = Ok (j link)) ->
  parse_series response
  = ((fun link => to_specs (j link)) <$> product_links (row_links response),
     Ok tt).
Proof.
  intros Hc Hs Hj. unfold parse_series. rewrite Hc. cbn.
  rewrite decide_False by (by intros ?).
  rewrite (follow_links_Ok _ _ j Hj). by destruct (_ <$> _).
Qed.

(** X15.  When joining a product link to the URL of the page raises,
    [parse_series] ends with that exception: the requests for the product
    links before it have been yielded, none for the links after it. *)
Theorem series_join_failure
    (response : Response) (crumb : list N) (j : list N -> list N)
    (l1 l2 : list (list N)) (link : list N) (e : exn) :
  hidden_crumb response = Some crumb ->
  strip crumb = str "Processors" ->
  row_links response = l1 ++ link :: l2 ->
  (forall l, l ∈ product_links l1 -> urljoin (url response) l = Ok (j l)) ->
  contains (str "/products/") link = true ->
  urljoin (url response) link = Raise e ->
  parse_series response
  = ((fun l => to_specs (j l)) <$> product_links l1, Raise e).
Proof.
  intros Hc Hs Hl Hj Hp He. unfold parse_series. rewrite Hc, Hl. cbn.
  rewrite decide_False by (by intros ?).
  rewrite (follow_links_Raise _ _ _ _ j e Hj Hp He). by destruct (_ <$> _).
Qed.

(** X16.  However [parse_series] ends, every request it has yielded is for
    [parse_specs], and its URL is the join of the page's URL with a link of
    the page that contains "/products/". *)
Theorem series_requests_sound (response : Response) (req : Request) :
  req ∈ (parse_series response).1 ->
  req_callback req = cb_parse_specs
  ∧ exists link, link ∈ row_links response
                 ∧ contains (str "/products/") link = true
                 ∧ urljoin (url response) link = Ok (req_url req).
Proof.
  unfold parse_series.
  destruct (hidden_crumb response) as [crumb|]; cbn;
    [|by intros ?%elem_of_nil].
  destruct (decide (strip crumb ≠ str "Processors"));
    [by intros ?%elem_of_nil|].
  destruct (follow_links response (row_links response)) as [ys r] eqn:F.
  cbn. intros Hin. apply follow_links_requests. by rewrite F.
Qed.

Lemma request_series_Ok base links j :
  (forall link, link ∈ links -> urljoin base link = Ok (j link)) ->
  request_series base links
  = ((fun link => to_series (j link)) <$> links, Ok tt).
Proof.
  induction links as [|link links IH]; intros Hj; [done|].
  cbn [request_series]. rewrite (Hj link) by by left.
  rewrite IH by (intros; apply Hj; by right). done.
Qed.

Lemma request_series_callback base links req :
  req ∈ (request_series base links).1 -> req_callback req = cb_parse_series.
Proof.
  induction links as [|link links IH]; cbn [request_series].
  { by intros ?%elem_of_nil. }
  destruct (urljoin base link) as [target|e]; [|by intros ?%elem_of_nil].
  cbn. destruct (request_series base links) as [ys r]. cbn in IH |- *.
  intros [->|Hin]%elem_of_cons; [done|by apply IH].
Qed.

Lemma walk_panels_Ok (catalog : Catalog) keys
    (links_of : list N -> list (list N)) j :
  (forall k, k ∈ keys -> panel_links catalog k = Ok (links_of k)) ->
  (forall k link, k ∈ keys -> link ∈ links_of k ->
                  urljoin (catalog_url catalog) link = Ok (j link)) ->
  walk_panels catalog keys
  = ((fun link => to_series (j link)) <$> concat (links_of <$> keys), Ok tt).
Proof.
  induction keys as [|k keys IH]; intros Hl Hj; [done|].
  cbn [walk_panels fmap list_fmap concat].
  rewrite (Hl k) by by left.
  rewrite glift_Ok_bind.
  rewrite (request_series_Ok _ _ j) by (intros; apply (Hj k); [by left|done]).
  rewrite IH; [|intros; apply Hl; by right
               |intros ??? ; apply Hj; by right].
  cbn. by rewrite fmap_app.
Qed.

(** X17.  [CpuSpecListSpider.parse] requests, for [parse_series], the links
    of every panel under "Processors", panel by panel in the order of the
    page, each joined to the URL of the catalog page; a link listed in two
    panels is requested twice. *)
Theorem catalog_requests
    (catalog : Catalog) (links_of : list N -> list (list N))
    (j : list N -> list N) :
  (forall k, k ∈ panel_keys catalog ->
             panel_links catalog k = Ok (links_of k)) ->
  (forall k link, k ∈ panel_keys catalog -> link ∈ links_of k ->
                  urljoin (catalog_url catalog) link = Ok (j link)) ->
  CpuSpecListSpider_parse catalog
  = ((fun link => to_series (j link))
       <$> concat (links_of <$> panel_keys catalog), Ok tt).
Proof. apply walk_panels_Ok. Qed.

(** X18.  A panel whose link query raises ends [CpuSpecListSpider.parse]
    with that exception, after the requests for the panels before it. *)
Theorem catalog_panel_failure
    (catalog : Catalog) (links_of : list N -> list (list N))
    (j : list N -> list N) (k1 k2 : list (list N)) (k : list N) (e : exn) :
  panel_keys catalog = k1 ++ k :: k2 ->
  (forall k', k' ∈ k1 -> panel_links catalog k' = Ok (links_of k')) ->
  (forall k' link, k' ∈ k1 -> link ∈ links_of k' ->
                   urljoin (catalog_url catalog) link = Ok (j link)) ->
  panel_links catalog k = Raise e ->
  CpuSpecListSpider_parse catalog
  = ((fun link => to_series (j link)) <$> concat (links_of <$> k1), Raise e).
Proof.
  unfold CpuSpecListSpider_parse. intros -> Hl Hj He.
  induction k1 as [|k' k1 IH]; cbn [app walk_panels fmap list_fmap concat].
  - by rewrite He.
  - rewrite (Hl k') by by left.
    rewrite glift_Ok_bind.
    rewrite (request_series_Ok _ _ j)
      by (intros; apply (Hj k'); [by left|done]).
    rewrite IH; [|intros; apply Hl; by right
                 |intros ???; apply Hj; by right].
    cbn. by rewrite fmap_app.
Qed.

Lemma walk_panels_callback (catalog : Catalog) keys req :
  req ∈ (walk_panels catalog keys).1 -> req_callback req = cb_parse_series.
Proof.
  induction keys as [|k keys IH]; cbn [walk_panels].
  { by intros ?%elem_of_nil. }
  destruct (panel_links catalog k) as [links|e]; [|by intros ?%elem_of_nil].
  rewrite glift_Ok_bind.
  pose proof (request_series_callback (catalog_url catalog) links req) as Hr.
  destruct (request_series (catalog_url catalog) links) as [ys [[]|e]];
    cbn in Hr |- *; [|done].
  destruct (walk_panels catalog keys) as [ys' r']. cbn in IH |- *.
  intros [?|?]%elem_of_app; [by apply Hr|by apply IH].
Qed.

(** X19.  Which callback a request gets depends only on the method that
    yields it, however that method ends: the requests of
    [CpuSpecListSpider.parse] and [SeriesSpider.parse] are for
    [parse_series], those of [parse_series] and [CpuSpecSpider.parse] are
    for [parse_specs]. *)
Theorem callback_routing (catalog : Catalog) (response : Response) :
  Forall (fun req => req_callback req = cb_parse_series)
         (CpuSpecListSpider_parse catalog).1
  ∧ Forall (fun req => req_callback req = cb_parse_series)
           (SeriesSpider_parse response).1
  ∧ Forall (fun req => req_callback req = cb_parse_specs)
           (parse_series response).1
  ∧ Forall (fun req => req_callback req = cb_parse_specs)
           (CpuSpecSpider_parse response).1.
Proof.
  split; [|split; [|split]].
  - apply Forall_forall. intros req. apply walk_panels_callback.
  - by apply Forall_singleton.
  - apply Forall_forall. intros req Hin.
    unfold parse_series in Hin.
    destruct (hidden_crumb response) as [crumb|]; cbn in Hin;
      [|by apply elem_of_nil in Hin].
    destruct (decide (strip crumb ≠ str "Processors"));
      [by apply elem_of_nil in Hin|].
    destruct (follow_links response (row_links response)) as [ys r] eqn:F.
    cbn in Hin. eapply follow_links_requests. by rewrite F.
  - by apply Forall_singleton.
Qed.

End Requests.

(** ** More on the text normaliser *)

Section CleantxtShape.

Implicit Types (s : list N).

(** X20.  Whatever the text, the result of [cleantxt] contains none of the
    trade mark, registered and double dagger signs, holds no code point
    that is neither in the text nor the space, and is not longer than the
    text. *)
Theorem cleantxt_output s :
  (forall c, c ∈ [8482; 174; 8225] -> c ∉ cleantxt s)%N
  ∧ (forall c, c ∈ cleantxt s -> c = 32%N ∨ c ∈ s)
  ∧ (length (cleantxt s) <= length s)%nat.
Proof.
  split; [apply cleantxt_no_glyph|]. split.
  - intros c Hin. unfold cleantxt in Hin.
    apply elem_of_normalise in Hin as [->|Hin]; [by left|]. right.
    by do 4 (apply elem_of_delete in Hin; [|done]).
  - etrans; [apply length_cleantxt|]. apply length_replace_go.
Qed.

(** X21.  The texts that [cleantxt] leaves as they are, are the lists of
    words joined by single spaces in which neither "Intel" nor one of the
    three signs occurs. *)
Theorem cleantxt_fixed_points s :
  cleantxt s = s
  <-> (exists ws, Forall word ws ∧ s = join (str " ") ws)
      ∧ contains (str "Intel") s = false
      ∧ (forall c, c ∈ [8482; 174; 8225] -> c ∉ s)%N.
Proof.
  split.
  - intros Heq. split; [|split].
    + destruct (cleantxt_words s) as (ws & Hws & E). exists ws.
      split; [done|]. by rewrite <- Heq.
    + destruct (contains (str "Intel") s) eqn:E; [|done].
      apply cleantxt_shrinks in E. rewrite Heq in E. lia.
    + rewrite <- Heq. apply cleantxt_no_glyph.
  - intros ((ws & Hws & ->) & HI & Hg). unfold cleantxt.
    rewrite (replace_absent _ _ _ HI).
    rewrite (delete_char_absent 8482) by (apply Hg; set_solver).
    rewrite (delete_char_absent 174) by (apply Hg; set_solver).
    rewrite (delete_char_absent 8225) by (apply Hg; set_solver).
    rewrite split_ws_join by done. by apply strip_join.
Qed.

End CleantxtShape.

(** ** More on the spider constructors *)

(** X22.  Both constructors reject a missing and an empty seed URL with
    "Invalid url given".  [SeriesSpider] checks "/products/" before
    "/series/", so a URL with neither is reported for "/products/"; the
    message ends with the URL.  What [SeriesSpider] accepts,
    [CpuSpecSpider] accepts too, with the same start URLs. *)
Theorem seed_url_messages (url : option (list N)) :
  (url = None ∨ url = Some [] ->
     CpuSpecSpider_init url = Raise (ValueError (str "Invalid url given"))
     ∧ SeriesSpider_init url = Raise (ValueError (str "Invalid url given")))
  ∧ (forall u,
        url = Some u -> u ≠ [] -> contains (str "/products/") u = false ->
        CpuSpecSpider_init url
        = Raise (ValueError (str "/products/ not found from url " ++ u))
        ∧ SeriesSpider_init url
          = Raise (ValueError (str "/products/ not found from url " ++ u)))
  ∧ (forall u,
        url = Some u -> contains (str "/products/") u = true ->
        contains (str "/series/") u = false ->
        CpuSpecSpider_init url = Ok [u]
        ∧ SeriesSpider_init url
          = Raise (ValueError (str "/series/ not found from url " ++ u)))
  ∧ (forall l, SeriesSpider_init url = Ok l -> CpuSpecSpider_init url = Ok l).
Proof.
  unfold CpuSpecSpider_init, SeriesSpider_init.
  split; [|split; [|split]].
  - intros [->| ->]; [by rewrite decide_False|by rewrite decide_True].
  - intros u -> Hu Hp%find_absent.
    rewrite decide_False by congruence. by rewrite !decide_True.
  - intros u -> Hp Hs%find_absent.
    assert (u ≠ []) by (by intros ->).
    rewrite !decide_False by congruence.
    rewrite !decide_False by (rewrite find_absent; congruence).
    by rewrite decide_True.
  - intros l. destruct (decide (url = Some [])); [done|].
    destruct url as [u|]; [|done].
    destruct (decide (find u (str "/products/") = (-1)%Z)); [done|].
    by destruct (decide (find u (str "/series/") = (-1)%Z)).
Qed.

(** ** The further properties on concrete pages *)

Import Samples.

Lemma parse_specs_id_header :
  exists specs legends m,
    collect page_id_header = Ok (specs, legends)
    ∧ parse_specs page_id_header
      = ([CPULegendItem legends; CPUSpecsItem m], Ok tt)
    ∧ m !! key "Essentials"
      = Some (TSection {[ str "Status" := String (str "Launched") ]}).
Proof. do 3 eexists. repeat split; by_compute. Qed.

(** X1, on the value "Launched" under "Status" in the "Essentials" section
    of the record of a page. *)
Lemma stored_value_origin_witness :
  exists data v,
    row_of (spec_divs page_id_header) (key "Essentials") (str "Status") data
    ∧ value_text data = Some v
    ∧ str "Launched" = v ∧ v ≠ [] ∧ v ≠ str "Yes" ∧ v ≠ str "No"
    ∧ (v ∉ skipIfValue) ∧ convertTo !! str "Status" = None
    ∧ (exists ws, Forall word ws ∧ v = join (str " ") ws).
Proof.
  destruct parse_specs_id_header as (specs & legends & m & _ & Hp & Hm).
  assert (CPUSpecsItem m ∈ (parse_specs page_id_header).1) as Hin.
  { rewrite Hp. by do 1 right; left. }
  exact (stored_value_origin page_id_header _ m (key "Essentials") _
           (str "Status") (String (str "Launched")) Hin eq_refl Hm
           ltac:(by_compute)).
Defined.

(** X2, on the key "Status" of the "Essentials" section of that record. *)
Lemma record_keys_have_legends_witness :
  exists legends,
    CPULegendItem (Conv := list (list N)) legends
      ∈ (parse_specs page_id_header).1
    ∧ legend_has legends (key "Essentials") (str "Status").
Proof.
  destruct parse_specs_id_header as (specs & legends & m & Hc & Hp & Hm).
  assert (CPUSpecsItem m ∈ (parse_specs page_id_header).1) as Hin.
  { rewrite Hp. by do 1 right; left. }
  exists legends.
  exact (record_keys_have_legends page_id_header specs legends _ m
           (key "Essentials") _ (str "Status") Hc Hin eq_refl Hm
           ltac:(by eexists; by_compute)).
Defined.

(** X3, on the record for the first socket of a page. *)
Lemma identity_fields_witness :
  exists m,
    product_record (socket_record q6600_base (str "LGA775")) = Some m
    ∧ m !! key "URL" = Some (TField (String (str ark_url)))
    ∧ exists t,
        current_page page_q6600 = Some t
        ∧ m !! key "name" = Some (TField (String (cleantxt t))).
Proof.
  assert (socket_record q6600_base (str "LGA775")
            ∈ (parse_specs page_q6600).1) as Hin.
  { rewrite parse_specs_q6600. by do 1 right; left. }
  eexists. split; [reflexivity|].
  exact (identity_fields page_q6600 _ _ Hin eq_refl).
Defined.

(** X5, on a page with the sockets "LGA775, PGA478". *)
Lemma socket_round_trip_witness :
  exists sockets,
    sockets ≠ []
    ∧ join (str ", ") sockets = str "LGA775, PGA478"
    ∧ socket_fields (parse_specs page_q6600).1
      = (fun s => TField (String s)) <$> sockets.
Proof.
  assert (q6600_specs !! key "Package Specifications"
          = Some (TSection q6600_package)) as Hp by by_compute.
  assert (key "Essentials" ∈ headers_of (spec_divs page_q6600)) as He
    by decide_by_compute.
  assert (q6600_package !! str "Sockets Supported"
          = Some (String (str "LGA775, PGA478"))) as Hs by by_compute.
  exact (socket_round_trip page_q6600 _ _ _ _ collect_q6600 Hp He Hs).
Defined.

(** X6, on a page whose "Sockets Supported" reads "Yes". *)
Lemma sockets_not_text_witness :
  exists legends,
    parse_specs page_socket_yes
    = ([CPULegendItem legends], Raise AttributeError).
Proof.
  assert (exists specs legends,
             collect page_socket_yes = Ok (specs, legends)
             ∧ specs !! key "Package Specifications"
               = Some (TSection {[ str "Sockets Supported" := Boolean true ]}))
    as (specs & legends & Hc & Hp) by (do 2 eexists; split; by_compute).
  assert (key "Essentials" ∈ headers_of (spec_divs page_socket_yes)) as He
    by decide_by_compute.
  exists legends.
  exact (sockets_not_text page_socket_yes specs legends _ (Boolean true)
           Hc Hp ltac:(by_compute) He).
Defined.

(** X8, on a page with two blocks headed "Essentials". *)
Lemma adjacent_blocks_merge_witness :
  parse_specs
    (with_divs page_split_essentials
       [ div "Essentials"
           [ row "Processor Number" "Q6600"; row "Status" "Launched" ];
         div "Package Specifications"
           [ row "Sockets Supported" "LGA775" ] ])
  = parse_specs page_split_essentials.
Proof.
  exact (adjacent_blocks_merge page_split_essentials []
           [ div "Package Specifications"
               [ row "Sockets Supported" "LGA775" ] ]
           (div "Essentials" [ row "Processor Number" "Q6600" ])
           (div "Essentials" [ row "Status" "Launched" ])
           eq_refl ltac:(by intros [=]) ltac:(by intros [=]) eq_refl).
Defined.

(** X9, on two rows for "Status", the second with spaces around the key. *)
Lemma later_row_replaces_witness :
  process_row (Conv := list (list N)) (key "Essentials")
    ({[ key "Essentials"
          := TSection {[ str "Status" := String (str "Launched") ]} ]},
     {[ key "Essentials" := {[ str "Status" := str "Status" ]} ]})
    (row " Status " "Discontinued")
  = process_row (key "Essentials")
      ({[ key "Essentials" := TSection ∅ ]}, {[ key "Essentials" := ∅ ]})
      (row " Status " "Discontinued").
Proof.
  apply (later_row_replaces (key "Essentials")
           ({[ key "Essentials" := TSection ∅ ]}, {[ key "Essentials" := ∅ ]})
           _ (row "Status" "Launched") (row " Status " "Discontinued")
           (str "Status") (str " Status "));
    [by_compute|reflexivity|reflexivity|by_compute|].
  intros v Hv. vm_compute in Hv. injection Hv as <-. decide_by_compute.
Defined.

(** The dictionaries when the first row of the first block of a page at
    [ark_url] is reached. *)
Lemma reaches_first_row
    (env : Collaborators (list (list N))) (h : string) (data : Row)
    (rows : list Row) :
  urlsplit_path (Collaborators := env) = url_path ->
  py_int (Collaborators := env) = int_literal ->
  reaches (page ark_url [ div h (data :: rows) ]) (div h (data :: rows)) data
    (init_header (key h)
       (initial_specs (page ark_url [ div h (data :: rows) ])
          (str "Core i7") 29765, ∅)).
Proof.
  intros Hu Hi.
  exists (str "/content/www/us/en/ark/products/29765/q6600.html"),
    (str "29765"), 29765%Z, (str "Intel Core i7"), [], [],
    (initial_specs (page ark_url [ div h (data :: rows) ])
       (str "Core i7") 29765, ∅), [], rows.
  rewrite Hu, Hi.
  repeat split; try by_compute. by intros [=].
Qed.

(** X10, on a list converter that raises [IndexError]. *)
Lemma converter_exception_propagates_witness :
  parse_specs (Collaborators0 := env_toList_fails) page_extensions
  = ([], Raise IndexError).
Proof.
  apply (converter_exception_propagates (Collaborators0 := env_toList_fails)
           page_extensions _ _ _
           (str "InstructionSetExtensions") (str "SSE4.1, AVX2")
           conv_toList IndexError
           (reaches_first_row env_toList_fails "Advanced Technologies"
              (row "InstructionSetExtensions" "SSE4.1, AVX2") []
              eq_refl eq_refl));
    [decide_by_compute|reflexivity|reflexivity|decide_by_compute
    |decide_by_compute|by vm_compute|by vm_compute|by vm_compute
    |by_compute|by_compute|done].
Defined.

(** X11, on a row without a label node and on a row without a value
    node. *)
Lemma missing_row_nodes_witness :
  parse_specs page_no_label = ([], Raise AttributeError)
  ∧ parse_specs page_no_value = ([], Raise TypeError).
Proof.
  split.
  - destruct (missing_row_nodes page_no_label _ _ _
                (reaches_first_row env "Essentials"
                   {| tech_label := None; tech_data := Some (str "x") |} []
                   eq_refl eq_refl)) as [H _].
    exact (H eq_refl).
  - destruct (missing_row_nodes page_no_value _ _ _
                (reaches_first_row env "Essentials"
                   {| tech_label := Some (str "Status"); tech_data := None |}
                   [] eq_refl eq_refl)) as [_ H].
    apply (H (str "Status"));
      [reflexivity|decide_by_compute|decide_by_compute|reflexivity].
Defined.

(** X12, on a block headed "name". *)
Lemma header_collision_witness :
  parse_specs page_name_header = ([], Raise (KeyError (key "name"))).
Proof.
  apply (header_collision page_name_header _ _ _ (str "Status")
           (reaches_first_row env "name" (row "Status" "Launched") []
              eq_refl eq_refl));
    [decide_by_compute|reflexivity|decide_by_compute].
Defined.

(** X13, on the record for the first socket of a page. *)
Lemma record_keys_witness :
  exists m,
    product_record (socket_record q6600_base (str "LGA775")) = Some m
    ∧ is_Some (m !! key "Essentials")
    ∧ (exists d, m !! key "Package Specifications" = Some (TSection d))
    ∧ (forall h,
          is_Some (m !! h) ->
          h ∈ initial_keys ∨ h ∈ headers_of (spec_divs page_q6600)
          ∨ h = key "id" ∨ h = key "socket").
Proof.
  assert (socket_record q6600_base (str "LGA775")
            ∈ (parse_specs page_q6600).1) as Hin.
  { rewrite parse_specs_q6600. by do 1 right; left. }
  eexists. split; [reflexivity|].
  destruct (record_keys page_q6600 _ _ Hin eq_refl) as (H1 & H2 & H3).
  split; [apply H1; decide_by_compute|].
  split; [apply H2; decide_by_compute|exact H3].
Defined.

(** X14, on a listing page with one product link among three. *)
Lemma series_requests_witness :
  parse_series page_core_series
  = ([ {| req_url := str "/content/www/us/en/ark/products/29765/q6600.html";
          req_callback := cb_parse_specs |} ], Ok tt).
Proof.
  rewrite (series_requests page_core_series (str " Processors ") id
             eq_refl ltac:(by_compute) ltac:(reflexivity)).
  by_compute.
Defined.

(** X15, on a listing page whose third link cannot be joined: the request
    for the first link is yielded, none for the fourth. *)
Lemma series_join_failure_witness :
  parse_series (Collaborators0 := env_strict_join) page_bad_link
  = ([ {| req_url := str "/content/www/us/en/ark/products/1/a.html";
          req_callback := cb_parse_specs |} ],
     Raise (ValueError (str "Invalid IPv6 URL"))).
Proof.
  rewrite (series_join_failure (Collaborators0 := env_strict_join)
             page_bad_link (str "Processors") id
             [ str "/content/www/us/en/ark/products/1/a.html"; str "#top" ]
             [ str "/content/www/us/en/ark/products/3/c.html" ]
             (str "//[/products/2/b.html")
             (ValueError (str "Invalid IPv6 URL"))
             eq_refl ltac:(by_compute) eq_refl).
  - by_compute.
  - intros l Hl. vm_compute in Hl.
    apply list_elem_of_singleton in Hl as ->. by_compute.
  - by_compute.
  - by_compute.
Defined.

(** X16, on the request of that listing page. *)
Lemma series_requests_sound_witness :
  exists link,
    link ∈ row_links page_core_series
    ∧ contains (str "/products/") link = true
    ∧ urljoin (url page_core_series) link
      = Ok (str "/content/www/us/en/ark/products/29765/q6600.html").
Proof.
  assert (parse_series page_core_series
          = ([ {| req_url :=
                    str "/content/www/us/en/ark/products/29765/q6600.html";
                  req_callback := cb_parse_specs |} ], Ok tt)) as Hp
    by by_compute.
  destruct (series_requests_sound page_core_series
              {| req_url :=
                   str "/content/www/us/en/ark/products/29765/q6600.html";
                 req_callback := cb_parse_specs |}) as [_ H].
  { rewrite Hp. by left. }
  exact H.
Defined.

(** X17, on a catalog with a panel of two links and a panel of one. *)
Lemma catalog_requests_witness :
  CpuSpecListSpider_parse catalog_two
  = ([ {| req_url := str "/series/1/core.html";
          req_callback := cb_parse_series |};
       {| req_url := str "/series/2/xeon.html";
          req_callback := cb_parse_series |};
       {| req_url := str "/series/3/atom.html";
          req_callback := cb_parse_series |} ], Ok tt).
Proof.
  rewrite (catalog_requests catalog_two links_two id).
  - by_compute.
  - intros k _. unfold catalog_two, links_two. cbn [panel_links].
    by destruct (decide (k = str "PanelLabel122139")).
  - reflexivity.
Defined.

(** X18, on a catalog whose second panel key holds a quote. *)
Lemma catalog_panel_failure_witness :
  CpuSpecListSpider_parse catalog_quote
  = ([ {| req_url := str "/series/3/atom.html";
          req_callback := cb_parse_series |} ],
     Raise (ValueError (str "XPath error"))).
Proof.
  rewrite (catalog_panel_failure catalog_quote links_quote id
             [ str "PanelLabel595" ] [] (str "Panel'Label")
             (ValueError (str "XPath error")) eq_refl).
  - by_compute.
  - intros k ->%list_elem_of_singleton. by_compute.
  - reflexivity.
  - by_compute.
Defined.
